(** * hw-08: a command-line contact manager

    A shallow embedding of [hw-08.py] (field validators, [Record],
    [AddressBook], the upcoming-birthday query and the command handlers)
    together with the parts of the Python runtime the program relies on
    ([str] methods, [datetime.strptime]/[strftime], comparison and
    subtraction of [datetime] objects, exceptions).

    Conventions:
    - a Python [str] is a list of Unicode code points ([list N]);
    - Python integers are [Z];
    - a call that may raise returns a [result]; a method that mutates its
      receiver is a function from the receiver's state to an outcome and
      the new state ([M]);
    - a [dict] is an association list in insertion order with unique keys. *)

From Stdlib Require Import ZArith NArith List String Ascii Bool Lia.
Import ListNotations.

(** ** Python strings *)

Module Py.

Definition pystr := list N.

(** An ASCII literal as a Python string. *)
Definition lit (s : string) : pystr := map N_of_ascii (list_ascii_of_string s).

Fixpoint str_eqb (a b : pystr) : bool :=
  match a, b with
  | [], [] => true
  | x :: a', y :: b' => N.eqb x y && str_eqb a' b'
  | _, _ => false
  end.

(** [len(s)] *)
Definition len (s : pystr) : Z := Z.of_nat (List.length s).

(** [sep.join(parts)] *)
Fixpoint join (sep : pystr) (parts : list pystr) : pystr :=
  match parts with
  | [] => []
  | [p] => p
  | p :: rest => p ++ sep ++ join sep rest
  end.

(** *** The Unicode character database (version 14.0.0, CPython 3.11)

    The zero of every run of ten decimal digits (general category Nd);
    the fifty mathematical digits U+1D7CE..U+1D7FF are five such runs. *)
Definition decimal_zeros : list N :=
  [0x30; 0x660; 0x6f0; 0x7c0; 0x966; 0x9e6; 0xa66; 0xae6; 0xb66; 0xbe6;
   0xc66; 0xce6; 0xd66; 0xde6; 0xe50; 0xed0; 0xf20; 0x1040; 0x1090; 0x17e0;
   0x1810; 0x1946; 0x19d0; 0x1a80; 0x1a90; 0x1b50; 0x1bb0; 0x1c40; 0x1c50;
   0xa620; 0xa8d0; 0xa900; 0xa9d0; 0xa9f0; 0xaa50; 0xabf0; 0xff10;
   0x104a0; 0x10d30; 0x11066; 0x110f0; 0x11136; 0x111d0; 0x112f0; 0x11450;
   0x114d0; 0x11650; 0x116c0; 0x11730; 0x118e0; 0x11950; 0x11c50; 0x11d50;
   0x11da0; 0x16a60; 0x16ac0; 0x16b50;
   0x1d7ce; 0x1d7d8; 0x1d7e2; 0x1d7ec; 0x1d7f6;
   0x1e140; 0x1e2f0; 0x1e950; 0x1fbf0]%N.

(** Characters with Numeric_Type=Digit that are not decimal digits
    (superscripts, subscripts, circled digits, ...), as closed ranges. *)
Definition other_digit_ranges : list (N * N) :=
  [(0xb2, 0xb3); (0xb9, 0xb9); (0x1369, 0x1371); (0x19da, 0x19da);
   (0x2070, 0x2070); (0x2074, 0x2079); (0x2080, 0x2089); (0x2460, 0x2468);
   (0x2474, 0x247c); (0x2488, 0x2490); (0x24ea, 0x24ea); (0x24f5, 0x24fd);
   (0x24ff, 0x24ff); (0x2776, 0x277e); (0x2780, 0x2788); (0x278a, 0x2792);
   (0x10a40, 0x10a43); (0x10e60, 0x10e68); (0x11052, 0x1105a);
   (0x1f100, 0x1f10a)]%N.

(** Characters for which [str.isspace] holds, as closed ranges. *)
Definition space_ranges : list (N * N) :=
  [(0x9, 0xd); (0x1c, 0x20); (0x85, 0x85); (0xa0, 0xa0); (0x1680, 0x1680);
   (0x2000, 0x200a); (0x2028, 0x2029); (0x202f, 0x202f); (0x205f, 0x205f);
   (0x3000, 0x3000)]%N.

Fixpoint decimal_in (zeros : list N) (c : N) : option N :=
  match zeros with
  | [] => None
  | z :: zeros' =>
      if (N.leb z c && N.ltb c (z + 10))%N then Some (c - z)%N
      else decimal_in zeros' c
  end.

(** [unicodedata.decimal(c)], [None] when [c] is no decimal digit. *)
Definition decimal (c : N) : option N := decimal_in decimal_zeros c.

Definition in_ranges (rs : list (N * N)) (c : N) : bool :=
  existsb (fun r => N.leb (fst r) c && N.leb c (snd r)) rs.

(** One character of [str.isdecimal] (and of the regular expression [\d]). *)
Definition isdecimal_char (c : N) : bool :=
  match decimal c with Some _ => true | None => false end.

(** One character of [str.isdigit]. *)
Definition isdigit_char (c : N) : bool :=
  isdecimal_char c || in_ranges other_digit_ranges c.

Definition isspace_char (c : N) : bool := in_ranges space_ranges c.

(** [s.isdigit()]: every character is a digit and there is at least one. *)
Definition isdigit (s : pystr) : bool :=
  match s with
  | [] => false
  | _ => forallb isdigit_char s
  end.

Fixpoint lstrip (s : pystr) : pystr :=
  match s with
  | c :: s' => if isspace_char c then lstrip s' else s
  | [] => []
  end.

Definition rstrip (s : pystr) : pystr := rev (lstrip (rev s)).

(** [s.strip()] *)
Definition strip (s : pystr) : pystr := rstrip (lstrip s).

(** The ASCII decimal digits ['0'..'9']. *)
Definition is_ascii_digit (c : N) : bool := (N.leb 48 c && N.leb c 57)%N.

(** *** Exceptions and outcomes *)

Inductive exn : Type :=
| ValueError (msg : pystr)
| TypeError (msg : pystr)
| IndexError (msg : pystr)
| AttributeError (msg : pystr).

(** [str(e)] *)
Definition exn_str (e : exn) : pystr :=
  match e with
  | ValueError m | TypeError m | IndexError m | AttributeError m => m
  end.

Inductive result (A : Type) : Type :=
| Ok (a : A)
| Raise (e : exn).
Arguments Ok {A} a.
Arguments Raise {A} e.

Definition rbind {A B} (r : result A) (k : A -> result B) : result B :=
  match r with
  | Ok a => k a
  | Raise e => Raise e
  end.

(** A computation over a mutable object of type [S]: the outcome and the
    state the object is left in (also when an exception is raised). *)
Definition M (S A : Type) : Type := S -> result A * S.

Definition ret {S A} (a : A) : M S A := fun s => (Ok a, s).
Definition raise {S A} (e : exn) : M S A := fun s => (Raise e, s).
Definition bind {S A B} (m : M S A) (k : A -> M S B) : M S B :=
  fun s => match m s with
           | (Ok a, s') => k a s'
           | (Raise e, s') => (Raise e, s')
           end.
Definition get {S} : M S S := fun s => (Ok s, s).
Definition put {S} (s : S) : M S unit := fun _ => (Ok tt, s).
Definition lift {S A} (r : result A) : M S A := fun s => (r, s).

(** [args[i]] on a list: [IndexError] out of range. *)
Definition index {A} (l : list A) (i : nat) : result A :=
  match nth_error l i with
  | Some a => Ok a
  | None => Raise (IndexError (lit "list index out of range"))
  end.

End Py.

Import Py.

Declare Scope py_scope.
Delimit Scope py_scope with py.
Notation "x <- m ;; k" := (bind m (fun x => k))
  (at level 61, m at next level, right associativity) : py_scope.
Notation "m ;;; k" := (bind m (fun _ => k))
  (at level 61, right associativity) : py_scope.
Notation "x <-? r ;; k" := (rbind r (fun x => k))
  (at level 61, r at next level, right associativity) : py_scope.
Open Scope py_scope.

(** ** The [datetime] library *)

Module Datetime.

Definition ch (a : ascii) : N := N_of_ascii a.

(** *** Integers and text *)

(** The character of a digit value [0..9]. *)
Definition digit_char (n : Z) : N := (48 + Z.to_N n)%N.

Fixpoint dec_digits (fuel : nat) (n : Z) : pystr :=
  match fuel with
  | O => []
  | S fuel' =>
      if (n <? 10)%Z then [digit_char n]
      else dec_digits fuel' (n / 10) ++ [digit_char (n mod 10)]
  end.

(** [str(n)] for a non-negative integer. *)
Definition str_of_Z (n : Z) : pystr :=
  dec_digits (S (Z.to_nat (Z.log2 n))) n.

(** [s.zfill(width)] for a text without sign. *)
Definition zfill (width : nat) (s : pystr) : pystr :=
  repeat (ch "0") (width - List.length s) ++ s.

(** The value of a run of decimal digits, [None] when the run is empty or
    holds another character. *)
Fixpoint digits_value (acc : Z) (s : pystr) : option Z :=
  match s with
  | [] => Some acc
  | c :: s' =>
      match decimal c with
      | Some v => digits_value (acc * 10 + Z.of_N v) s'
      | None => None
      end
  end.

(** [int(s)] on the texts the format's groups can capture: decimal digits
    of any script, with white space around them. (Signs, underscores and
    base prefixes, which no group captures, are not modelled.) *)
Definition int (s : pystr) : result Z :=
  match strip s with
  | [] => Raise (ValueError (lit "invalid literal for int() with base 10"))
  | t =>
      match digits_value 0 t with
      | Some v => Ok v
      | None => Raise (ValueError (lit "invalid literal for int() with base 10"))
      end
  end.

(** *** Calendar arithmetic ([_is_leap], [_days_in_month], [_ymd2ord]) *)

Definition MINYEAR : Z := 1.
Definition MAXYEAR : Z := 9999.

Definition _is_leap (year : Z) : bool :=
  ((year mod 4 =? 0) && (negb (year mod 100 =? 0) || (year mod 400 =? 0)))%Z.

Definition _DAYS_IN_MONTH : list Z :=
  [-1; 31; 28; 31; 30; 31; 30; 31; 31; 30; 31; 30; 31]%Z.

Definition _DAYS_BEFORE_MONTH : list Z :=
  [-1; 0; 31; 59; 90; 120; 151; 181; 212; 243; 273; 304; 334]%Z.

Definition _days_before_year (year : Z) : Z :=
  let y := (year - 1)%Z in (y * 365 + y / 4 - y / 100 + y / 400)%Z.

Definition _days_in_month (year month : Z) : Z :=
  if ((month =? 2)%Z && _is_leap year) then 29%Z
  else nth (Z.to_nat month) _DAYS_IN_MONTH (-1)%Z.

Definition _days_before_month (year month : Z) : Z :=
  (nth (Z.to_nat month) _DAYS_BEFORE_MONTH (-1)
   + (if ((2 <? month) && _is_leap year)%bool then 1 else 0))%Z.

Definition _ymd2ord (year month day : Z) : Z :=
  (_days_before_year year + _days_before_month year month + day)%Z.

(** The check every [date] and [datetime] constructor makes. *)
Definition _check_date_fields (year month day : Z) : result unit :=
  if negb ((MINYEAR <=? year) && (year <=? MAXYEAR))%Z then
    Raise (ValueError (lit "year " ++ str_of_Z year ++ lit " is out of range"))
  else if negb ((1 <=? month) && (month <=? 12))%Z then
    Raise (ValueError (lit "month must be in 1..12"))
  else if negb ((1 <=? day) && (day <=? _days_in_month year month))%Z then
    Raise (ValueError (lit "day is out of range for month"))
  else Ok tt.

(** *** The classes [date], [datetime] and [timedelta] *)

Record date : Type := mkdate { d_year : Z; d_month : Z; d_day : Z }.

Record datetime : Type := mkdatetime {
  year : Z; month : Z; day : Z;
  hour : Z; minute : Z; second : Z; microsecond : Z }.

Record timedelta : Type := mktimedelta {
  days : Z; seconds : Z; microseconds : Z }.

(** What the right operand of a comparison or subtraction can be here:
    [datetime] is a subclass of [date], and the library tells them apart. *)
Inductive dateobj : Type :=
| IsDate (d : date)
| IsDateTime (dt : datetime).

(** [dt.replace(year=y)] builds a new [datetime] through the constructor. *)
Definition replace_year (dt : datetime) (y : Z) : result datetime :=
  _ <-? _check_date_fields y (month dt) (day dt) ;;
  Ok (mkdatetime y (month dt) (day dt)
        (hour dt) (minute dt) (second dt) (microsecond dt)).

Definition toordinal (dt : datetime) : Z := _ymd2ord (year dt) (month dt) (day dt).

Fixpoint cmp_lex (a b : list Z) : comparison :=
  match a, b with
  | x :: a', y :: b' =>
      match Z.compare x y with Eq => cmp_lex a' b' | c => c end
  | [], [] => Eq
  | [], _ => Lt
  | _, [] => Gt
  end.

(** [datetime._cmp] of two naive [datetime] objects. *)
Definition _cmp (a b : datetime) : comparison :=
  cmp_lex [year a; month a; day a; hour a; minute a; second a; microsecond a]
          [year b; month b; day b; hour b; minute b; second b; microsecond b].

(** [datetime.__lt__(self, other)]: only another [datetime] is compared; a
    plain [date] is refused. *)
Definition datetime_lt (self : datetime) (other : dateobj) : result bool :=
  match other with
  | IsDateTime o => Ok (match _cmp self o with Lt => true | _ => false end)
  | IsDate _ =>
      Raise (TypeError (lit "can't compare datetime.datetime to datetime.date"))
  end.

(** [timedelta(days, seconds, microseconds)], normalised. *)
Definition new_timedelta (d s us : Z) : timedelta :=
  let s' := (s + us / 1000000)%Z in
  mktimedelta (d + s' / 86400)%Z (s' mod 86400)%Z (us mod 1000000)%Z.

(** [datetime.__sub__(self, other)]: defined for another [datetime]; for a
    plain [date] it answers [NotImplemented], [date] has no reflected
    subtraction, and the interpreter raises [TypeError]. *)
Definition datetime_sub (self : datetime) (other : dateobj) : result timedelta :=
  match other with
  | IsDateTime o =>
      Ok (new_timedelta
            (toordinal self - toordinal o)
            ((second self + minute self * 60 + hour self * 3600)
             - (second o + minute o * 60 + hour o * 3600))
            (microsecond self - microsecond o))
  | IsDate _ =>
      Raise (TypeError (lit
        "unsupported operand type(s) for -: 'datetime.datetime' and 'datetime.date'"))
  end.

(** *** [strptime] with the format ['%d.%m.%Y']

    [_strptime] turns the format into the regular expression
    [(?P<d>3[0-1]|[1-2]\d|0[1-9]|[1-9]| [1-9])\.(?P<m>1[0-2]|0[1-9]|[1-9])\.(?P<Y>\d\d\d\d)]
    and matches it at the start of the text. Alternatives are tried from
    left to right, and a later one is tried when the rest of the pattern
    fails after an earlier one: each piece below takes the rest of the
    pattern as a continuation. (The pattern is compiled ignoring case;
    no character has a case variant among the digits, the space and the
    full stop.) *)

Section Regex.
Context {A : Type}.

Definition orelse (a b : option A) : option A :=
  match a with Some x => Some x | None => b end.

Definition in_class (lo hi : ascii) (c : N) : bool :=
  N.leb (ch lo) c && N.leb c (ch hi).

Definition is_char (a : ascii) (c : N) : bool := N.eqb c (ch a).

(** Two characters satisfying [p1] and [p2]. *)
Definition re2 (p1 p2 : N -> bool) (s : pystr)
    (k : pystr -> pystr -> option A) : option A :=
  match s with
  | c1 :: c2 :: r => if p1 c1 && p2 c2 then k [c1; c2] r else None
  | _ => None
  end.

(** One character satisfying [p]. *)
Definition re1 (p : N -> bool) (s : pystr)
    (k : pystr -> pystr -> option A) : option A :=
  match s with
  | c :: r => if p c then k [c] r else None
  | _ => None
  end.

(** [3[0-1]|[1-2]\d|0[1-9]|[1-9]| [1-9]] *)
Definition re_d (s : pystr) (k : pystr -> pystr -> option A) : option A :=
  orelse (re2 (is_char "3") (in_class "0" "1") s k)
 (orelse (re2 (in_class "1" "2") isdecimal_char s k)
 (orelse (re2 (is_char "0") (in_class "1" "9") s k)
 (orelse (re1 (in_class "1" "9") s k)
         (re2 (is_char " ") (in_class "1" "9") s k)))).

(** [1[0-2]|0[1-9]|[1-9]] *)
Definition re_m (s : pystr) (k : pystr -> pystr -> option A) : option A :=
  orelse (re2 (is_char "1") (in_class "0" "2") s k)
 (orelse (re2 (is_char "0") (in_class "1" "9") s k)
         (re1 (in_class "1" "9") s k)).

(** [\d\d\d\d] *)
Definition re_Y (s : pystr) (k : pystr -> pystr -> option A) : option A :=
  match s with
  | c1 :: c2 :: c3 :: c4 :: r =>
      if isdecimal_char c1 && isdecimal_char c2
         && isdecimal_char c3 && isdecimal_char c4
      then k [c1; c2; c3; c4] r else None
  | _ => None
  end.

(** [\.] *)
Definition re_dot (s : pystr) (k : pystr -> option A) : option A :=
  match s with
  | c :: r => if is_char "." c then k r else None
  | [] => None
  end.
End Regex.

(** The groups [d], [m], [Y] of the first match and the unmatched rest. *)
Definition re_dmY (s : pystr) : option (pystr * pystr * pystr * pystr) :=
  re_d s (fun d r1 =>
  re_dot r1 (fun r2 =>
  re_m r2 (fun m r3 =>
  re_dot r3 (fun r4 =>
  re_Y r4 (fun y r5 => Some (d, m, y, r5)))))).

(** [datetime.strptime(s, '%d.%m.%Y')]. Every failure is a [ValueError];
    the text of the first message leaves out the [repr] of the data. *)
Definition strptime_dmY (s : pystr) : result datetime :=
  match re_dmY s with
  | None => Raise (ValueError (lit "time data does not match format '%d.%m.%Y'"))
  | Some (d, m, y, rest) =>
      match rest with
      | _ :: _ => Raise (ValueError (lit "unconverted data remains: " ++ rest))
      | [] =>
          vd <-? int d ;;
          vm <-? int m ;;
          vy <-? int y ;;
          _ <-? _check_date_fields vy vm vd ;;
          Ok (mkdatetime vy vm vd 0 0 0 0)
      end
  end.

(** How the C library writes the year for [%Y]. [strftime] hands the
    format to the platform's C library: day and month always come as two
    digits, but the year comes as four digits padded with zeros on some
    platforms (the library's table of format codes shows 0001..9999; so
    do CPython from 3.13 and the C libraries of Windows and macOS) and as
    a plain decimal number on others (glibc under CPython up to 3.12). *)
Inductive year_style : Type :=
| PaddedYear
| PlainYear.

(** [%Y] of [strftime]. *)
Definition strftime_Y (style : year_style) (y : Z) : pystr :=
  match style with
  | PaddedYear => zfill 4 (str_of_Z y)
  | PlainYear => str_of_Z y
  end.

(** [dt.strftime('%d.%m.%Y')] *)
Definition strftime_dmY (style : year_style) (dt : datetime) : pystr :=
  zfill 2 (str_of_Z (day dt)) ++ [ch "."]
  ++ zfill 2 (str_of_Z (month dt)) ++ [ch "."]
  ++ strftime_Y style (year dt).

End Datetime.

Import Datetime.

(** ** The fields of a record: [Name], [Phone], [Birthday] *)

Record Name : Type := mkName { name_value : pystr }.

Record Phone : Type := mkPhone { phone_value : pystr }.

Record Birthday : Type := mkBirthday { birthday_value : datetime }.

(** [Name(value)] *)
Definition Name_init (value : pystr) : result Name :=
  match strip value with
  | [] => Raise (ValueError (lit "Name cannot be empty."))
  | _ => Ok (mkName value)
  end.

(** [Phone(value)] *)
Definition Phone_init (value : pystr) : result Phone :=
  if negb (isdigit value) || negb (len value =? 10)%Z then
    Raise (ValueError (lit "Phone number must be 10 digits."))
  else Ok (mkPhone value).

(** [Birthday(value)]: a [ValueError] of [strptime] is replaced by the
    class's own. *)
Definition Birthday_init (value : pystr) : result Birthday :=
  match strptime_dmY value with
  | Ok dt => Ok (mkBirthday dt)
  | Raise (ValueError _) =>
      Raise (ValueError (lit "Invalid date format. Use DD.MM.YYYY"))
  | Raise e => Raise e
  end.

(** [str(birthday)] *)
Definition Birthday_str (style : year_style) (b : Birthday) : pystr :=
  strftime_dmY style (birthday_value b).

(** ** [Record] *)

Record ContactRecord : Type := mkRecord {
  name : Name;
  phones : list Phone;
  birthday : option Birthday }.

Definition set_phones (ps : list Phone) (r : ContactRecord) : ContactRecord :=
  mkRecord (name r) ps (birthday r).

Definition set_birthday (b : option Birthday) (r : ContactRecord) : ContactRecord :=
  mkRecord (name r) (phones r) b.

(** [Record(name)] *)
Definition Record_init (nm : pystr) : result ContactRecord :=
  n <-? Name_init nm ;;
  Ok (mkRecord n [] None).

(** [record.add_phone(phone)] *)
Definition add_phone (phone : pystr) : M ContactRecord unit :=
  fun r =>
    match Phone_init phone with
    | Ok p => (Ok tt, set_phones (phones r ++ [p]) r)
    | Raise e => (Raise e, r)
    end.

(** [record.remove_phone(phone)] *)
Definition remove_phone (phone : pystr) : M ContactRecord unit :=
  fun r =>
    (Ok tt,
     set_phones
       (filter (fun p => negb (str_eqb (phone_value p) phone)) (phones r)) r).

(** The loop of [edit_phone]: the first phone whose value is [old_phone]
    gets the value [new_phone]; [None] when the loop ends without a match. *)
Fixpoint edit_phone_loop (ps : list Phone) (old_phone new_phone : pystr)
    : option (list Phone) :=
  match ps with
  | [] => None
  | p :: ps' =>
      if str_eqb (phone_value p) old_phone
      then Some (mkPhone new_phone :: ps')
      else match edit_phone_loop ps' old_phone new_phone with
           | Some ps'' => Some (p :: ps'')
           | None => None
           end
  end.

(** [record.edit_phone(old_phone, new_phone)] *)
Definition edit_phone (old_phone new_phone : pystr) : M ContactRecord unit :=
  fun r =>
    match edit_phone_loop (phones r) old_phone new_phone with
    | Some ps => (Ok tt, set_phones ps r)
    | None => (Raise (ValueError (lit "Old phone number not found.")), r)
    end.

(** [record.find_phone(phone)] *)
Definition find_phone (phone : pystr) (r : ContactRecord) : option Phone :=
  List.find (fun p => str_eqb (phone_value p) phone) (phones r).

(** [record.add_birthday(birthday)] *)
Definition add_birthday (value : pystr) : M ContactRecord unit :=
  fun r =>
    match Birthday_init value with
    | Ok b => (Ok tt, set_birthday (Some b) r)
    | Raise e => (Raise e, r)
    end.

(** [str(record)] *)
Definition Record_str (style : year_style) (r : ContactRecord) : pystr :=
  lit "Contact name: " ++ name_value (name r)
  ++ lit ", phones: " ++ join (lit "; ") (map phone_value (phones r))
  ++ match birthday r with
     | Some b => lit ", birthday: " ++ Birthday_str style b
     | None => []
     end.

(** ** [AddressBook]: the [data] dictionary of a [UserDict] *)

Definition AddressBook : Type := list (pystr * ContactRecord).

(** [d.get(key, None)] *)
Fixpoint dict_get {V} (d : list (pystr * V)) (key : pystr) : option V :=
  match d with
  | [] => None
  | (k, v) :: d' => if str_eqb k key then Some v else dict_get d' key
  end.

(** [d[key] = value]: an existing key keeps its place, a new one goes last. *)
Fixpoint dict_set {V} (d : list (pystr * V)) (key : pystr) (value : V)
    : list (pystr * V) :=
  match d with
  | [] => [(key, value)]
  | (k, v) :: d' =>
      if str_eqb k key then (k, value) :: d'
      else (k, v) :: dict_set d' key value
  end.

(** [del d[key]] *)
Definition dict_del {V} (d : list (pystr * V)) (key : pystr) : list (pystr * V) :=
  filter (fun kv => negb (str_eqb (fst kv) key)) d.

Definition dict_keys {V} (d : list (pystr * V)) : list pystr := map fst d.
Definition dict_values {V} (d : list (pystr * V)) : list V := map snd d.

(** [book.add_record(record)] *)
Definition add_record (record : ContactRecord) : M AddressBook unit :=
  fun book => (Ok tt, dict_set book (name_value (name record)) record).

(** [book.find(name)] *)
Definition find (nm : pystr) (book : AddressBook) : option ContactRecord :=
  dict_get book nm.

(** [book.delete(name)] *)
Definition delete (nm : pystr) : M AddressBook unit :=
  fun book =>
    match dict_get book nm with
    | Some _ => (Ok tt, dict_del book nm)
    | None => (Ok tt, book)
    end.

(** [str(book)] *)
Definition AddressBook_str (style : year_style) (book : AddressBook) : pystr :=
  join [10%N] (map (Record_str style) (dict_values book)).

(** One entry of the list [get_upcoming_birthdays] returns:
    [{"name": ..., "birthday": ...}]. *)
Record Upcoming : Type := mkUpcoming { up_name : pystr; up_birthday : pystr }.

(** The loop of [get_upcoming_birthdays] over [self.data.values()]. *)
Fixpoint upcoming_loop (style : year_style) (today : date)
    (records : list ContactRecord) (upcoming_birthdays : list Upcoming)
    : result (list Upcoming) :=
  match records with
  | [] => Ok upcoming_birthdays
  | record :: rest =>
      match birthday record with
      | None => upcoming_loop style today rest upcoming_birthdays
      | Some b =>
          birthday_this_year <-? replace_year (birthday_value b) (d_year today) ;;
          passed <-? datetime_lt birthday_this_year (IsDate today) ;;
          birthday_this_year <-?
            (if passed : bool
             then replace_year birthday_this_year (d_year today + 1)
             else Ok birthday_this_year) ;;
          delta <-? datetime_sub birthday_this_year (IsDate today) ;;
          if ((0 <=? days delta) && (days delta <=? 7))%Z
          then upcoming_loop style today rest
                 (upcoming_birthdays
                  ++ [mkUpcoming (name_value (name record))
                                 (strftime_dmY style birthday_this_year)])
          else upcoming_loop style today rest upcoming_birthdays
      end
  end.

(** [book.get_upcoming_birthdays()]; [today] is what
    [datetime.now().date()] returns. *)
Definition get_upcoming_birthdays (style : year_style) (today : date)
    (book : AddressBook) : result (list Upcoming) :=
  upcoming_loop style today (dict_values book) [].

(** ** The command handlers *)

(** What a handler returns: [None] or a string. *)
Inductive pyval : Type :=
| PyNone
| PyStr (s : pystr).

Definition Handler : Type := list pystr -> M AddressBook pyval.

(** A method call on the record stored under [nm]: the object is changed
    in place, so the entry under [nm] holds the new state afterwards.
    (Every record in the book is a separate object: [add] builds a new one
    for each entry.) *)
Definition on_record {A} (nm : pystr) (record : ContactRecord)
    (m : M ContactRecord A) : M AddressBook A :=
  fun book =>
    let '(res, record') := m record in (res, dict_set book nm record').

(** The decorator [input_error]. *)
Definition input_error (func : Handler) : Handler :=
  fun args book =>
    match func args book with
    | (Ok v, book') => (Ok v, book')
    | (Raise e, book') => (Ok (PyStr (exn_str e)), book')
    end.

Definition add_birthday_body : Handler :=
  fun args =>
    match args with
    | [nm; bday] =>
        book <- get ;;
        match find nm book with
        | Some record =>
            on_record nm record (add_birthday bday) ;;;
            ret (PyStr (lit "Added birthday " ++ bday ++ lit " for " ++ nm))
        | None => ret (PyStr (lit "Contact " ++ nm ++ lit " not found"))
        end
    | _ => raise (ValueError (lit "Usage: add-birthday [name] [birthday]"))
    end.

(** The handler [add_birthday] (the command [add-birthday]). *)
Definition add_birthday_cmd : Handler := input_error add_birthday_body.

Definition show_birthday_body (style : year_style) : Handler :=
  fun args =>
    match args with
    | [nm] =>
        book <- get ;;
        match find nm book with
        | Some record =>
            match birthday record with
            | Some b =>
                ret (PyStr (nm ++ lit "'s birthday is " ++ Birthday_str style b))
            | None =>
                ret (PyStr (lit "Contact " ++ nm ++ lit " not found or no birthday set"))
            end
        | None =>
            ret (PyStr (lit "Contact " ++ nm ++ lit " not found or no birthday set"))
        end
    | _ => raise (ValueError (lit "Usage: show-birthday [name]"))
    end.

(** The handler [show_birthday]. *)
Definition show_birthday (style : year_style) : Handler :=
  input_error (show_birthday_body style).

Definition birthdays_body (style : year_style) (today : date) : Handler :=
  fun args =>
    book <- get ;;
    upcoming <- lift (get_upcoming_birthdays style today book) ;;
    match upcoming with
    | [] => ret (PyStr (lit "No upcoming birthdays"))
    | _ =>
        ret (PyStr (join [10%N]
               (map (fun item => up_name item ++ lit ": " ++ up_birthday item)
                    upcoming)))
    end.

(** The handler [birthdays]. *)
Definition birthdays (style : year_style) (today : date) : Handler :=
  input_error (birthdays_body style today).

(** [lambda args, book: book.add_record(Record(args[0]))] *)
Definition cmd_add : Handler :=
  fun args =>
    a0 <- lift (index args 0) ;;
    record <- lift (Record_init a0) ;;
    add_record record ;;;
    ret PyNone.

(** [lambda args, book: book.find(args[0]).edit_phone(args[1], args[2])]:
    the receiver is evaluated, then its attribute, then the arguments. *)
Definition cmd_change : Handler :=
  fun args =>
    a0 <- lift (index args 0) ;;
    book <- get ;;
    match find a0 book with
    | None =>
        raise (AttributeError
                 (lit "'NoneType' object has no attribute 'edit_phone'"))
    | Some record =>
        a1 <- lift (index args 1) ;;
        a2 <- lift (index args 2) ;;
        on_record a0 record (edit_phone a1 a2) ;;;
        ret PyNone
    end.

(** [lambda args, book: str(book.find(args[0]))] *)
Definition cmd_phone (style : year_style) : Handler :=
  fun args =>
    a0 <- lift (index args 0) ;;
    book <- get ;;
    match find a0 book with
    | Some record => ret (PyStr (Record_str style record))
    | None => ret (PyStr (lit "None"))
    end.

(** [lambda args, book: str(book)] *)
Definition cmd_all (style : year_style) : Handler :=
  fun args => book <- get ;; ret (PyStr (AddressBook_str style book)).

Definition cmd_hello : Handler :=
  fun args => ret (PyStr (lit "Hello! How can I assist you?")).

Definition cmd_goodbye : Handler :=
  fun args => ret (PyStr (lit "Goodbye!")).

(** The table [commands]. *)
Definition commands (style : year_style) (today : date)
    : list (pystr * Handler) :=
  [ (lit "add", cmd_add);
    (lit "change", cmd_change);
    (lit "phone", cmd_phone style);
    (lit "all", cmd_all style);
    (lit "add-birthday", add_birthday_cmd);
    (lit "show-birthday", show_birthday style);
    (lit "birthdays", birthdays style today);
    (lit "hello", cmd_hello);
    (lit "close", cmd_goodbye);
    (lit "exit", cmd_goodbye) ].

(** [handle_command(command, args, book)] *)
Definition handle_command (style : year_style) (today : date)
    (command : pystr) (args : list pystr) : M AddressBook pyval :=
  match dict_get (commands style today) command with
  | Some handler => handler args
  | None => ret (PyStr (lit "Unknown command"))
  end.

(** ** Specification vocabulary *)

(** A calendar date the library can represent. *)
Definition valid_date (y m d : Z) : Prop :=
  (MINYEAR <= y <= MAXYEAR /\ 1 <= m <= 12 /\ 1 <= d <= _days_in_month y m)%Z.

(** The four digits of a year [0..9999]. *)
Definition four_digits (y : Z) : pystr :=
  [digit_char (y / 1000); digit_char (y / 100 mod 10);
   digit_char (y / 10 mod 10); digit_char (y mod 10)].

(** The text [DD.MM.YYYY] of a date, written out digit by digit. *)
Definition render_DDMMYYYY (y m d : Z) : pystr :=
  [digit_char (d / 10); digit_char (d mod 10); ch "."%char;
   digit_char (m / 10); digit_char (m mod 10); ch "."%char;
   digit_char (y / 1000); digit_char (y / 100 mod 10);
   digit_char (y / 10 mod 10); digit_char (y mod 10)].

(** Exactly ten ASCII decimal digits. *)
Definition ten_ascii_digits (s : pystr) : bool :=
  Nat.eqb (List.length s) 10 && forallb is_ascii_digit s.

(** Every record of the book is stored under its own name. *)
Definition keys_are_names (book : AddressBook) : Prop :=
  Forall (fun kv => fst kv = name_value (name (snd kv))) book.

(** A dictionary holds each key once. *)
Definition unique_keys {V} (d : list (pystr * V)) : Prop := NoDup (dict_keys d).

(** [a] is [b] with some elements left out, the others in their order. *)
Inductive subseq {A} : list A -> list A -> Prop :=
| subseq_nil : subseq [] []
| subseq_skip x a b : subseq a b -> subseq a (x :: b)
| subseq_keep x a b : subseq a b -> subseq (x :: a) (x :: b).

(** The ways a book changes: its own operations, the methods of a record
    found in it, and the commands. *)
Inductive method : Type :=
| CallAddPhone (phone : pystr)
| CallRemovePhone (phone : pystr)
| CallEditPhone (old_phone new_phone : pystr)
| CallAddBirthday (value : pystr).

Definition call (m : method) : M ContactRecord unit :=
  match m with
  | CallAddPhone phone => add_phone phone
  | CallRemovePhone phone => remove_phone phone
  | CallEditPhone old_phone new_phone => edit_phone old_phone new_phone
  | CallAddBirthday value => add_birthday value
  end.

Inductive reachable : AddressBook -> Prop :=
| reach_empty : reachable []
| reach_add_record book record :
    reachable book -> reachable (snd (add_record record book))
| reach_delete book nm :
    reachable book -> reachable (snd (delete nm book))
| reach_method book nm record m :
    reachable book -> find nm book = Some record ->
    reachable (snd (on_record nm record (call m) book))
| reach_command book style today command args :
    reachable book ->
    reachable (snd (handle_command style today command args book)).

(** *** Concrete inputs *)

Definition june_10_2024 : date := mkdate 2024 6 10.

(** The book after the commands [add nm] and [add-birthday nm bday],
    starting from the empty book. *)
Definition book_with_birthday (nm bday : string) : AddressBook :=
  snd (handle_command PaddedYear june_10_2024 (lit "add-birthday")
         [lit nm; lit bday]
         (snd (handle_command PaddedYear june_10_2024 (lit "add") [lit nm] []))).

(** A record holding one phone. *)
Definition record_with_phone (nm phone : string) : ContactRecord :=
  mkRecord (mkName (lit nm)) [mkPhone (lit phone)] None.

(** The ten Arabic-Indic digits U+0661..U+0669, U+0660. *)
Definition arabic_indic_1234567890 : pystr :=
  [0x661; 0x662; 0x663; 0x664; 0x665; 0x666; 0x667; 0x668; 0x669; 0x660]%N.

(** ** Reading commands: [parse_input] and [main] *)

(** The loop of [s.split()]: runs of white space separate the words, and
    no empty word is produced. [cur] is the word being read. *)
Fixpoint split_ws (cur : pystr) (s : pystr) : list pystr :=
  match s with
  | [] => match cur with [] => [] | _ => [cur] end
  | c :: s' =>
      if isspace_char c
      then match cur with
           | [] => split_ws [] s'
           | _ => cur :: split_ws [] s'
           end
      else split_ws (cur ++ [c]) s'
  end.

(** [s.split()] *)
Definition split (s : pystr) : list pystr := split_ws [] s.

(** [parse_input(user_input)]: [parts[0]] raises [IndexError] when the
    line holds no word; [parts[1:]] are the other words. *)
Definition parse_input (user_input : pystr) : result (pystr * list pystr) :=
  let parts := split user_input in
  command <-? index parts 0 ;;
  Ok (command, tl parts).

(** [load_data()] and [save_data(book)]: the file holds a pickled book or
    does not exist; pickling and unpickling give back an equal book. *)
Definition load_data (file : option AddressBook) : AddressBook :=
  match file with
  | Some book => book
  | None => []
  end.

Definition save_data (book : AddressBook) : option AddressBook := Some book.

(** How a run of [main] ends: the book was saved after [close] or [exit],
    an exception left the loop, or [input] found the input at its end. *)
Inductive session_end : Type :=
| Saved (book : AddressBook)
| Crashed (e : exn) (book : AddressBook)
| EndOfInput (book : AddressBook).

(** [str(response)], as [print] writes it. *)
Definition pyval_str (v : pyval) : pystr :=
  match v with
  | PyNone => lit "None"
  | PyStr s => s
  end.

(** [print(s)] *)
Definition print (s : pystr) (stdout : list pystr) : list pystr :=
  stdout ++ [s ++ [10%N]].

(** The loop of [main]. Each input line comes with the date of the day it
    is read on; [stdout] collects what is written, prompts included. *)
Fixpoint main_loop (style : year_style) (inputs : list (date * pystr))
    (book : AddressBook) (stdout : list pystr) : list pystr * session_end :=
  let stdout := stdout ++ [lit "Enter a command: "] in
  match inputs with
  | [] => (stdout, EndOfInput book)
  | (today, user_input) :: rest =>
      match parse_input user_input with
      | Raise e => (stdout, Crashed e book)
      | Ok (command, args) =>
          if str_eqb command (lit "close") || str_eqb command (lit "exit")
          then (print (lit "Goodbye!") stdout, Saved book)
          else
            match handle_command style today command args book with
            | (Ok response, book') =>
                main_loop style rest book' (print (pyval_str response) stdout)
            | (Raise e, book') => (stdout, Crashed e book')
            end
      end
  end.

(** [main()] *)
Definition main (style : year_style) (file : option AddressBook)
    (inputs : list (date * pystr)) : list pystr * session_end :=
  main_loop style inputs (load_data file)
    (print (lit "Welcome to the assistant bot!") []).

(** The file after a run: written only when the run ended with a save. *)
Definition file_after (file : option AddressBook) (e : session_end)
    : option AddressBook :=
  match e with
  | Saved book => save_data book
  | _ => file
  end.

(** The book a run ended with. *)
Definition final_book (e : session_end) : AddressBook :=
  match e with
  | Saved book | Crashed _ book | EndOfInput book => book
  end.

(** No character of the text is white space. *)
Definition no_space (s : pystr) : Prop :=
  Forall (fun c => isspace_char c = false) s.

(** A word as [split] produces them: not empty, no white space. *)
Definition is_word (s : pystr) : Prop := s <> [] /\ no_space s.

(** The record has a phone of this value. *)
Definition has_phone (phone : pystr) (r : ContactRecord) : Prop :=
  exists p, In p (phones r) /\ phone_value p = phone.

(** The names of the table [commands]. *)
Definition command_names : list pystr :=
  [lit "add"; lit "change"; lit "phone"; lit "all"; lit "add-birthday";
   lit "show-birthday"; lit "birthdays"; lit "hello"; lit "close"; lit "exit"].

(** ** Basic facts about strings and dictionaries *)

Lemma str_eqb_eq (a b : pystr) : str_eqb a b = true <-> a = b.
Proof.
  revert b; induction a as [|x a IH]; intros [|y b]; simpl; split;
    try congruence; try reflexivity.
  - intros H. apply andb_true_iff in H as [Hx Hab].
    apply N.eqb_eq in Hx. apply IH in Hab. congruence.
  - intros H. injection H as -> ->.
    apply andb_true_iff; split; [apply N.eqb_refl | now apply IH].
Qed.

Lemma str_eqb_refl (a : pystr) : str_eqb a a = true.
Proof. now apply str_eqb_eq. Qed.

Lemma str_eqb_neq (a b : pystr) : str_eqb a b = false <-> a <> b.
Proof.
  split.
  - intros H E. apply str_eqb_eq in E. congruence.
  - intros H. destruct (str_eqb a b) eqn:E; [|reflexivity].
    apply str_eqb_eq in E. contradiction.
Qed.

Section Dict.
Context {V : Type}.
Implicit Types (d : list (pystr * V)) (k : pystr) (v : V).

Lemma dict_get_set_same d k v : dict_get (dict_set d k v) k = Some v.
Proof.
  induction d as [|[k' v'] d IH]; simpl.
  - now rewrite str_eqb_refl.
  - destruct (str_eqb k' k) eqn:E; simpl; rewrite E; [reflexivity | exact IH].
Qed.

Lemma dict_get_set_other d k k' v :
  k' <> k -> dict_get (dict_set d k v) k' = dict_get d k'.
Proof.
  intros Hne. induction d as [|[k0 v0] d IH]; simpl.
  - assert (str_eqb k k' = false) as -> by (apply str_eqb_neq; congruence).
    reflexivity.
  - destruct (str_eqb k0 k) eqn:E; simpl.
    + apply str_eqb_eq in E; subst k0.
      assert (str_eqb k k' = false) as -> by (apply str_eqb_neq; congruence).
      reflexivity.
    + destruct (str_eqb k0 k'); [reflexivity | exact IH].
Qed.

Lemma dict_set_keys_in d k v k' :
  In k' (dict_keys (dict_set d k v)) <-> k' = k \/ In k' (dict_keys d).
Proof.
  induction d as [|[k0 v0] d IH]; simpl.
  - intuition congruence.
  - destruct (str_eqb k0 k) eqn:E; simpl.
    + apply str_eqb_eq in E; subst k0. intuition congruence.
    + rewrite IH. intuition congruence.
Qed.

Lemma dict_set_unique d k v : unique_keys d -> unique_keys (dict_set d k v).
Proof.
  unfold unique_keys. induction d as [|[k0 v0] d IH]; simpl; intros H.
  - constructor; [intros [] | constructor].
  - inversion H as [|? ? Hnotin Hd]; subst.
    destruct (str_eqb k0 k) eqn:E; simpl.
    + constructor; assumption.
    + constructor; [|now apply IH].
      intros Hin. apply dict_set_keys_in in Hin as [->|Hin].
      * rewrite str_eqb_refl in E. discriminate.
      * contradiction.
Qed.

Lemma in_dict_keys d k v : In (k, v) d -> In k (dict_keys d).
Proof. intros H. apply (in_map fst) in H. exact H. Qed.

Lemma dict_set_in d k v k' v' :
  unique_keys d ->
  In (k', v') (dict_set d k v) ->
  (k' = k /\ v' = v) \/ (k' <> k /\ In (k', v') d).
Proof.
  unfold unique_keys. induction d as [|[k0 v0] d IH]; simpl; intros Hu.
  - intros [H|[]]. injection H as <- <-. now left.
  - inversion Hu as [|? ? Hnotin Hd]; subst.
    destruct (str_eqb k0 k) eqn:E; simpl.
    + apply str_eqb_eq in E; subst k0.
      intros [H|H].
      * injection H as <- <-. now left.
      * right. split; [|now right].
        intros ->. apply Hnotin. eapply in_dict_keys; eassumption.
    + intros [H|H].
      * injection H as <- <-. right. split; [|now left].
        apply str_eqb_neq in E. congruence.
      * destruct (IH Hd H) as [?|[Hne Hin]];
          [now left | right; split; [assumption | now right]].
Qed.
End Dict.

(** ** The upcoming-birthday query *)

(** As soon as a record with a birthday is met, the loop raises: either
    [replace] refuses the date (29 February in a year that is not a leap
    year), or the comparison of the [datetime] with the [date] [today]
    does. The loop only returns when no record has a birthday. *)
Lemma upcoming_loop_ok_inv style today records acc l :
  upcoming_loop style today records acc = Ok l ->
  l = acc /\ Forall (fun r => birthday r = None) records.
Proof.
  revert acc. induction records as [|r rs IH]; simpl; intros acc H.
  - injection H as <-. split; [reflexivity | constructor].
  - destruct (birthday r) as [b|] eqn:Hb.
    + destruct (replace_year (birthday_value b) (d_year today)); simpl in H;
        discriminate.
    + destruct (IH _ H) as [-> Hrs]. split; [reflexivity|].
      constructor; assumption.
Qed.

Lemma upcoming_loop_no_birthdays style today records acc :
  Forall (fun r => birthday r = None) records ->
  upcoming_loop style today records acc = Ok acc.
Proof.
  induction 1 as [|r rs Hr _ IH]; simpl; [reflexivity|].
  rewrite Hr. exact IH.
Qed.

Lemma get_upcoming_birthdays_ok_inv style today book l :
  get_upcoming_birthdays style today book = Ok l ->
  l = [] /\ Forall (fun r => birthday r = None) (dict_values book).
Proof. apply upcoming_loop_ok_inv. Qed.

(** C1 (the code departs from the claim). With today = 10.06.2024 and a
    contact Alice whose birthday is 12.06.1990, [get_upcoming_birthdays]
    does not return a list holding Alice with the date 12.06.2024: the
    book is the one the commands build, the occurrence in today's year is
    the [datetime] 2024-06-12, and comparing it with the [date] [today]
    raises [TypeError]. *)
Theorem upcoming_1206_raises_TypeError :
  forall style,
    book_with_birthday "Alice" "12.06.1990"
      = [(lit "Alice",
          mkRecord (mkName (lit "Alice")) []
                   (Some (mkBirthday (mkdatetime 1990 6 12 0 0 0 0))))]
    /\ replace_year (mkdatetime 1990 6 12 0 0 0 0) (d_year june_10_2024)
       = Ok (mkdatetime 2024 6 12 0 0 0 0)
    /\ get_upcoming_birthdays style june_10_2024
         (book_with_birthday "Alice" "12.06.1990")
       = Raise (TypeError
                  (lit "can't compare datetime.datetime to datetime.date")).
Proof. intros style. repeat split; vm_compute; reflexivity. Qed.

(** C2 (the code departs from the claim). With today = 10.06.2024 and a
    contact Bob whose birthday is 05.06.1990, the occurrence in today's
    year is 2024-06-05, but the test [birthday_this_year < today] that
    should roll it to 2025 raises [TypeError], and so does the whole
    query: nothing is rolled forward and no list is returned. *)
Theorem upcoming_0506_raises_TypeError :
  forall style,
    replace_year (mkdatetime 1990 6 5 0 0 0 0) (d_year june_10_2024)
      = Ok (mkdatetime 2024 6 5 0 0 0 0)
    /\ datetime_lt (mkdatetime 2024 6 5 0 0 0 0) (IsDate june_10_2024)
       = Raise (TypeError
                  (lit "can't compare datetime.datetime to datetime.date"))
    /\ get_upcoming_birthdays style june_10_2024
         (book_with_birthday "Bob" "05.06.1990")
       = Raise (TypeError
                  (lit "can't compare datetime.datetime to datetime.date")).
Proof. intros style. repeat split; vm_compute; reflexivity. Qed.

(** ** The command table *)

(** A decorated handler never raises. *)
Lemma input_error_never_raises func args book :
  exists v book', input_error func args book = (Ok v, book').
Proof.
  unfold input_error. destruct (func args book) as [[v|e] book']; eauto.
Qed.

Lemma input_error_state func args book :
  snd (input_error func args book) = snd (func args book).
Proof.
  unfold input_error. destruct (func args book) as [[v|e] book']; reflexivity.
Qed.

(** C3 (the code departs from the claim). Only [add-birthday],
    [show-birthday] and [birthdays] are wrapped in [input_error]; the
    handlers given as lambdas are not. [change] on a contact that does not
    exist lets an [AttributeError] escape, [add] without an argument an
    [IndexError], [change] with an unknown old phone a [ValueError]; and
    [add], when it succeeds, returns [None] instead of a string. *)
Theorem lambda_handlers_let_errors_escape :
  forall style today,
    handle_command style today (lit "change")
      [lit "Ghost"; lit "0000000000"; lit "1111111111"] []
      = (Raise (AttributeError
                  (lit "'NoneType' object has no attribute 'edit_phone'")), [])
    /\ handle_command style today (lit "add") [] []
       = (Raise (IndexError (lit "list index out of range")), [])
    /\ handle_command style today (lit "change")
         [lit "Ann"; lit "0000000000"; lit "1111111111"]
         [(lit "Ann", record_with_phone "Ann" "2222222222")]
       = (Raise (ValueError (lit "Old phone number not found.")),
          [(lit "Ann", record_with_phone "Ann" "2222222222")])
    /\ handle_command style today (lit "add") [lit "Ann"] []
       = (Ok PyNone, [(lit "Ann", mkRecord (mkName (lit "Ann")) [] None)]).
Proof. intros style today. repeat split; vm_compute; reflexivity. Qed.

(** ** Phones of a record *)

Lemma edit_phone_loop_found pre p post old_phone new_phone :
  Forall (fun q => phone_value q <> old_phone) pre ->
  phone_value p = old_phone ->
  edit_phone_loop (pre ++ p :: post) old_phone new_phone
    = Some (pre ++ mkPhone new_phone :: post).
Proof.
  intros Hpre Hp. induction Hpre as [|q pre Hq _ IH]; simpl.
  - rewrite Hp, str_eqb_refl. reflexivity.
  - apply str_eqb_neq in Hq. rewrite Hq, IH. reflexivity.
Qed.

Lemma edit_phone_loop_not_found ps old_phone new_phone :
  Forall (fun q => phone_value q <> old_phone) ps ->
  edit_phone_loop ps old_phone new_phone = None.
Proof.
  induction 1 as [|q ps Hq _ IH]; simpl; [reflexivity|].
  apply str_eqb_neq in Hq. rewrite Hq, IH. reflexivity.
Qed.

(** With the old phone present, the first phone equal to it is replaced in
    place, whatever the new text is. *)
Lemma edit_phone_found r pre p post old_phone new_phone :
  phones r = pre ++ p :: post ->
  Forall (fun q => phone_value q <> old_phone) pre ->
  phone_value p = old_phone ->
  edit_phone old_phone new_phone r
    = (Ok tt, set_phones (pre ++ mkPhone new_phone :: post) r).
Proof.
  intros Hr Hpre Hp. unfold edit_phone.
  rewrite Hr, (edit_phone_loop_found _ _ _ _ _ Hpre Hp). reflexivity.
Qed.

(** With the old phone absent, [edit_phone] raises and changes nothing. *)
Lemma edit_phone_not_found r old_phone new_phone :
  Forall (fun q => phone_value q <> old_phone) (phones r) ->
  edit_phone old_phone new_phone r
    = (Raise (ValueError (lit "Old phone number not found.")), r).
Proof.
  intros H. unfold edit_phone.
  rewrite (edit_phone_loop_not_found _ _ _ H). reflexivity.
Qed.

(** The example of the specification: the first edit replaces the phone,
    the same edit again finds nothing to replace. *)
Lemma edit_phone_twice :
  edit_phone (lit "0000000000") (lit "1111111111")
      (record_with_phone "Ann" "0000000000")
    = (Ok tt, record_with_phone "Ann" "1111111111")
  /\ edit_phone (lit "0000000000") (lit "1111111111")
       (record_with_phone "Ann" "1111111111")
     = (Raise (ValueError (lit "Old phone number not found.")),
        record_with_phone "Ann" "1111111111").
Proof. split; vm_compute; reflexivity. Qed.

(** C4 (the code departs from the claim). [edit_phone] assigns the new
    text to [p.value] without building a [Phone], so nothing validates it:
    on a record holding 0000000000, [edit_phone("0000000000", "abc")]
    returns normally and the record then holds the phone "abc", a text
    that [Phone] itself and [add_phone] refuse with [ValueError]. *)
Theorem edit_phone_stores_malformed_phone :
  edit_phone (lit "0000000000") (lit "abc")
      (record_with_phone "Ann" "0000000000")
    = (Ok tt, record_with_phone "Ann" "abc")
  /\ Phone_init (lit "abc")
     = Raise (ValueError (lit "Phone number must be 10 digits."))
  /\ add_phone (lit "abc") (record_with_phone "Ann" "0000000000")
     = (Raise (ValueError (lit "Phone number must be 10 digits.")),
        record_with_phone "Ann" "0000000000").
Proof. repeat split; vm_compute; reflexivity. Qed.

Lemma filter_subseq {A} (f : A -> bool) (l : list A) : subseq (filter f l) l.
Proof.
  induction l as [|x l IH]; simpl; [constructor|].
  destruct (f x); constructor; exact IH.
Qed.

Lemma edit_phone_frame old_phone new_phone r :
  name (snd (edit_phone old_phone new_phone r)) = name r
  /\ birthday (snd (edit_phone old_phone new_phone r)) = birthday r.
Proof.
  unfold edit_phone.
  destruct (edit_phone_loop (phones r) old_phone new_phone); split; reflexivity.
Qed.

Lemma add_phone_frame phone r :
  name (snd (add_phone phone r)) = name r
  /\ birthday (snd (add_phone phone r)) = birthday r.
Proof.
  unfold add_phone. destruct (Phone_init phone); split; reflexivity.
Qed.

Lemma add_birthday_name value r : name (snd (add_birthday value r)) = name r.
Proof. unfold add_birthday. destruct (Birthday_init value); reflexivity. Qed.

Lemma call_name m r : name (snd (call m r)) = name r.
Proof.
  destruct m; simpl.
  - apply add_phone_frame.
  - reflexivity.
  - apply edit_phone_frame.
  - apply add_birthday_name.
Qed.

(** C9. [add_phone], [remove_phone] and [edit_phone] leave the name and
    the birthday of the record as they were (whether they return or
    raise), and the phones left by [remove_phone] are the phones whose
    value differs from the argument, in the order they had. *)
Theorem phone_operations_frame :
  forall (r : ContactRecord) (phone old_phone new_phone : pystr),
    (name (snd (add_phone phone r)) = name r
     /\ birthday (snd (add_phone phone r)) = birthday r)
    /\ (name (snd (remove_phone phone r)) = name r
        /\ birthday (snd (remove_phone phone r)) = birthday r)
    /\ (name (snd (edit_phone old_phone new_phone r)) = name r
        /\ birthday (snd (edit_phone old_phone new_phone r)) = birthday r)
    /\ subseq (phones (snd (remove_phone phone r))) (phones r)
    /\ (forall p, In p (phones (snd (remove_phone phone r)))
                  <-> In p (phones r) /\ phone_value p <> phone).
Proof.
  intros r phone old_phone new_phone.
  split; [apply add_phone_frame|].
  split; [split; reflexivity|].
  split; [apply edit_phone_frame|].
  split; [apply filter_subseq|].
  intros p. simpl. rewrite filter_In, negb_true_iff, str_eqb_neq. reflexivity.
Qed.

(** ** [Phone] *)

Lemma forallb_seq_N (P : N -> bool) (n : nat) :
  forallb P (map N.of_nat (seq 0 n)) = true ->
  forall c, (c < N.of_nat n)%N -> P c = true.
Proof.
  intros H c Hc. rewrite forallb_forall in H. apply H.
  apply in_map_iff. exists (N.to_nat c). split; [apply N2Nat.id|].
  apply in_seq. lia.
Qed.

(** Below U+0080 the digits of [str.isdigit] are the ASCII digits. *)
Lemma isdigit_char_ascii c :
  (c < 128)%N -> isdigit_char c = is_ascii_digit c.
Proof.
  intros Hc.
  apply (forallb_seq_N
           (fun c => Bool.eqb (isdigit_char c) (is_ascii_digit c)) 128) in Hc.
  - now apply eqb_prop in Hc.
  - vm_compute. reflexivity.
Qed.

Lemma is_ascii_digit_isdigit c : is_ascii_digit c = true -> isdigit_char c = true.
Proof.
  intros H. rewrite isdigit_char_ascii; [exact H|].
  unfold is_ascii_digit in H. apply andb_true_iff in H as [_ H].
  apply N.leb_le in H. lia.
Qed.

Lemma Phone_init_eq value :
  Phone_init value
  = if Nat.eqb (List.length value) 10 && forallb isdigit_char value
    then Ok (mkPhone value)
    else Raise (ValueError (lit "Phone number must be 10 digits.")).
Proof.
  unfold Phone_init, len, isdigit.
  destruct (Nat.eqb (List.length value) 10) eqn:El.
  - apply Nat.eqb_eq in El.
    assert ((Z.of_nat (List.length value) =? 10)%Z = true) as ->
        by (apply Z.eqb_eq; lia).
    destruct value as [|c value]; [discriminate El|].
    destruct (forallb isdigit_char (c :: value)); reflexivity.
  - apply Nat.eqb_neq in El.
    assert ((Z.of_nat (List.length value) =? 10)%Z = false) as ->
        by (apply Z.eqb_neq; lia).
    simpl. rewrite orb_true_r. reflexivity.
Qed.

(** C5, as the code has it. [Phone(value)] succeeds exactly when [value]
    has ten characters and each is a digit in the sense of [str.isdigit]
    (any Unicode digit, not only ASCII); it then stores [value] as given.
    Every other text is refused with [ValueError]. For texts made of ASCII
    characters this is: exactly ten ASCII decimal digits. *)
Theorem Phone_init_spec :
  forall value : pystr,
    (Phone_init value = Ok (mkPhone value)
     <-> List.length value = 10%nat
         /\ Forall (fun c => isdigit_char c = true) value)
    /\ (forall p, Phone_init value = Ok p -> phone_value p = value)
    /\ (Phone_init value = Ok (mkPhone value)
        \/ Phone_init value
           = Raise (ValueError (lit "Phone number must be 10 digits.")))
    /\ (ten_ascii_digits value = true -> Phone_init value = Ok (mkPhone value))
    /\ (Forall (fun c => (c < 128)%N) value ->
        Phone_init value = Ok (mkPhone value) ->
        ten_ascii_digits value = true).
Proof.
  intros value. rewrite Phone_init_eq.
  destruct (Nat.eqb (List.length value) 10) eqn:El; simpl.
  - apply Nat.eqb_eq in El.
    destruct (forallb isdigit_char value) eqn:Ed.
    + assert (Hall : Forall (fun c => isdigit_char c = true) value)
        by (apply Forall_forall; now apply forallb_forall).
      repeat split; auto.
      * intros p H. injection H as <-. reflexivity.
      * intros Hascii _. unfold ten_ascii_digits.
        apply Nat.eqb_eq in El. rewrite El. simpl.
        apply forallb_forall. intros c Hc.
        rewrite Forall_forall in Hascii, Hall.
        rewrite <- isdigit_char_ascii; auto.
    + repeat split; try discriminate; auto.
      * intros [_ Hall]. rewrite Forall_forall in Hall.
        rewrite <- forallb_forall in Hall. congruence.
      * unfold ten_ascii_digits. intros H.
        apply andb_true_iff in H as [_ H].
        assert (forallb isdigit_char value = true); [|congruence].
        rewrite forallb_forall in *. intros c Hc.
        apply is_ascii_digit_isdigit. auto.
  - repeat split; try discriminate; auto.
    + intros [Hl _]. apply Nat.eqb_neq in El. contradiction.
    + unfold ten_ascii_digits. rewrite El. discriminate.
Qed.

Lemma Phone_init_spec_witness :
  Phone_init (lit "0123456789") = Ok (mkPhone (lit "0123456789")).
Proof.
  apply (proj1 (proj2 (proj2 (proj2 (Phone_init_spec (lit "0123456789")))))).
  vm_compute. reflexivity.
Defined.

(** C5 as stated fails: the ten Arabic-Indic digits are no ASCII digits,
    and [Phone] accepts them. *)
Lemma Phone_accepts_non_ascii_digits :
  ten_ascii_digits arabic_indic_1234567890 = false
  /\ Phone_init arabic_indic_1234567890 = Ok (mkPhone arabic_indic_1234567890).
Proof. split; vm_compute; reflexivity. Qed.

(** ** [Birthday]: parsing and rendering *)

Lemma forallb_seq_Z (P : Z -> bool) (n : Z) :
  forallb P (map Z.of_nat (seq 0 (Z.to_nat n))) = true ->
  forall z, (0 <= z < n)%Z -> P z = true.
Proof.
  intros H z Hz. rewrite forallb_forall in H. apply H.
  apply in_map_iff. exists (Z.to_nat z). split; [lia|].
  apply in_seq. lia.
Qed.

(** The characters of the digit values. *)
Lemma digit_char_facts n :
  (0 <= n <= 9)%Z ->
  decimal (digit_char n) = Some (Z.to_N n)
  /\ isdecimal_char (digit_char n) = true
  /\ isspace_char (digit_char n) = false.
Proof.
  intros Hn. destruct n as [|p|p]; try lia.
  - repeat split; vm_compute; reflexivity.
  - repeat (destruct p as [p|p|]; try lia);
      repeat split; vm_compute; reflexivity.
Qed.

(** [%d] and [%m]: two digits. *)
Lemma zfill2_digits n :
  (0 <= n <= 99)%Z ->
  zfill 2 (str_of_Z n) = [digit_char (n / 10); digit_char (n mod 10)].
Proof.
  intros Hn. apply str_eqb_eq.
  apply (forallb_seq_Z
           (fun n => str_eqb (zfill 2 (str_of_Z n))
                       [digit_char (n / 10); digit_char (n mod 10)]) 100);
    [vm_compute; reflexivity | lia].
Qed.

(** [%Y] padded: four digits. *)
Lemma zfill4_digits y :
  (0 <= y <= 9999)%Z -> zfill 4 (str_of_Z y) = four_digits y.
Proof.
  intros Hy. apply str_eqb_eq.
  apply (forallb_seq_Z
           (fun y => str_eqb (zfill 4 (str_of_Z y)) (four_digits y)) 10000);
    [vm_compute; reflexivity | lia].
Qed.

(** From the year 1000 on, the plain decimal number has four digits. *)
Lemma str_of_Z_four_digits y :
  (1000 <= y <= 9999)%Z -> str_of_Z y = four_digits y.
Proof.
  intros Hy. apply str_eqb_eq.
  assert (implb (1000 <=? y)%Z (str_eqb (str_of_Z y) (four_digits y)) = true)
    as Hr.
  { apply (forallb_seq_Z
             (fun y => implb (1000 <=? y)%Z
                         (str_eqb (str_of_Z y) (four_digits y))) 10000);
      [vm_compute; reflexivity | lia]. }
  assert ((1000 <=? y)%Z = true) as E by (apply Z.leb_le; lia).
  rewrite E in Hr. exact Hr.
Qed.

Lemma strftime_Y_four_digits style y :
  (1 <= y <= 9999)%Z -> style = PaddedYear \/ (1000 <= y)%Z ->
  strftime_Y style y = four_digits y.
Proof.
  intros Hy [->|H]; simpl.
  - apply zfill4_digits. lia.
  - destruct style; simpl; [apply zfill4_digits | apply str_of_Z_four_digits];
      lia.
Qed.

(** [int] of two and of four digit characters. *)
Lemma int_two_digits a b :
  (0 <= a <= 9)%Z -> (0 <= b <= 9)%Z ->
  int [digit_char a; digit_char b] = Ok (a * 10 + b)%Z.
Proof.
  intros Ha Hb.
  destruct (digit_char_facts a Ha) as (Da & _ & Sa).
  destruct (digit_char_facts b Hb) as (Db & _ & Sb).
  unfold int, strip, rstrip. simpl. rewrite Sa. simpl. rewrite Sb. simpl.
  rewrite Da, Db. f_equal. lia.
Qed.

Lemma int_four_digits a b c d :
  (0 <= a <= 9)%Z -> (0 <= b <= 9)%Z -> (0 <= c <= 9)%Z -> (0 <= d <= 9)%Z ->
  int [digit_char a; digit_char b; digit_char c; digit_char d]
  = Ok (((a * 10 + b) * 10 + c) * 10 + d)%Z.
Proof.
  intros Ha Hb Hc Hd.
  destruct (digit_char_facts a Ha) as (Da & _ & Sa).
  destruct (digit_char_facts b Hb) as (Db & _ & _).
  destruct (digit_char_facts c Hc) as (Dc & _ & _).
  destruct (digit_char_facts d Hd) as (Dd & _ & Sd).
  unfold int, strip, rstrip. simpl. rewrite Sa. simpl. rewrite Sd. simpl.
  rewrite Da, Db, Dc, Dd. f_equal. lia.
Qed.

(** The groups of the pattern on the digits of a day, a month and a year.
    A later alternative is only tried when the rest of the pattern fails,
    so a success of the rest after the two digits is the result. *)
Lemma re_d_render {A} d rest (k : pystr -> pystr -> option A) x :
  (1 <= d <= 31)%Z ->
  k [digit_char (d / 10); digit_char (d mod 10)] rest = Some x ->
  re_d (digit_char (d / 10) :: digit_char (d mod 10) :: rest) k = Some x.
Proof.
  intros Hd Hk.
  destruct d as [|p|p]; try lia.
  repeat (destruct p as [p|p|]; try lia);
    vm_compute in Hk; vm_compute; rewrite Hk; reflexivity.
Qed.

Lemma re_m_render {A} m rest (k : pystr -> pystr -> option A) x :
  (1 <= m <= 12)%Z ->
  k [digit_char (m / 10); digit_char (m mod 10)] rest = Some x ->
  re_m (digit_char (m / 10) :: digit_char (m mod 10) :: rest) k = Some x.
Proof.
  intros Hm Hk.
  destruct m as [|p|p]; try lia.
  repeat (destruct p as [p|p|]; try lia);
    vm_compute in Hk; vm_compute; rewrite Hk; reflexivity.
Qed.

Lemma four_digits_bounds y :
  (0 <= y <= 9999)%Z ->
  (0 <= y / 1000 <= 9 /\ 0 <= y / 100 mod 10 <= 9
   /\ 0 <= y / 10 mod 10 <= 9 /\ 0 <= y mod 10 <= 9
   /\ ((y / 1000 * 10 + y / 100 mod 10) * 10 + y / 10 mod 10) * 10 + y mod 10
      = y)%Z.
Proof. intros Hy. Z.to_euclidean_division_equations. lia. Qed.

Lemma two_digits_bounds n :
  (0 <= n <= 99)%Z ->
  (0 <= n / 10 <= 9 /\ 0 <= n mod 10 <= 9 /\ n / 10 * 10 + n mod 10 = n)%Z.
Proof. intros Hn. Z.to_euclidean_division_equations. lia. Qed.

Lemma re_Y_render {A} y rest (k : pystr -> pystr -> option A) :
  (0 <= y <= 9999)%Z ->
  re_Y (four_digits y ++ rest) k = k (four_digits y) rest.
Proof.
  intros Hy. destruct (four_digits_bounds y Hy) as (H1 & H2 & H3 & H4 & _).
  unfold four_digits, re_Y. simpl.
  destruct (digit_char_facts _ H1) as (_ & -> & _).
  destruct (digit_char_facts _ H2) as (_ & -> & _).
  destruct (digit_char_facts _ H3) as (_ & -> & _).
  destruct (digit_char_facts _ H4) as (_ & -> & _).
  reflexivity.
Qed.

Lemma days_in_month_le_31 y m :
  (1 <= m <= 12)%Z -> (28 <= _days_in_month y m <= 31)%Z.
Proof.
  intros Hm. unfold _days_in_month.
  destruct ((m =? 2)%Z && _is_leap y); [lia|].
  destruct m as [|p|p]; try lia.
  repeat (destruct p as [p|p|]; try lia); vm_compute; split; discriminate.
Qed.

Lemma check_date_fields_valid y m d :
  valid_date y m d -> _check_date_fields y m d = Ok tt.
Proof.
  intros (Hy & Hm & Hd). unfold _check_date_fields.
  assert (((MINYEAR <=? y) && (y <=? MAXYEAR))%Z = true) as ->
      by (apply andb_true_iff; split; apply Z.leb_le; lia).
  assert (((1 <=? m) && (m <=? 12))%Z = true) as ->
      by (apply andb_true_iff; split; apply Z.leb_le; lia).
  assert (((1 <=? d) && (d <=? _days_in_month y m))%Z = true) as ->
      by (apply andb_true_iff; split; apply Z.leb_le; lia).
  reflexivity.
Qed.

Lemma render_DDMMYYYY_eq y m d :
  render_DDMMYYYY y m d
  = digit_char (d / 10) :: digit_char (d mod 10) :: ch "."
    :: digit_char (m / 10) :: digit_char (m mod 10) :: ch "."
    :: four_digits y ++ [].
Proof. reflexivity. Qed.

Lemma re_dmY_render y m d :
  valid_date y m d ->
  re_dmY (render_DDMMYYYY y m d)
  = Some ([digit_char (d / 10); digit_char (d mod 10)],
          [digit_char (m / 10); digit_char (m mod 10)],
          four_digits y, []).
Proof.
  intros (Hy & Hm & Hd).
  pose proof (days_in_month_le_31 y m Hm) as Hdim.
  unfold MINYEAR, MAXYEAR in Hy.
  rewrite render_DDMMYYYY_eq. unfold re_dmY.
  apply re_d_render; [lia|].
  unfold re_dot at 1. change (is_char "." (ch ".")) with true. cbv iota.
  apply re_m_render; [lia|].
  unfold re_dot. change (is_char "." (ch ".")) with true. cbv iota.
  apply re_Y_render. lia.
Qed.

(** Parsing the zero-padded text of a valid date gives that date. *)
Lemma strptime_render y m d :
  valid_date y m d ->
  strptime_dmY (render_DDMMYYYY y m d) = Ok (mkdatetime y m d 0 0 0 0).
Proof.
  intros Hv. unfold strptime_dmY. rewrite (re_dmY_render y m d Hv).
  pose proof (check_date_fields_valid y m d Hv) as Hc.
  destruct Hv as (Hy & Hm & Hd).
  pose proof (days_in_month_le_31 y m Hm) as Hdim.
  unfold MINYEAR, MAXYEAR in Hy.
  destruct (two_digits_bounds d ltac:(lia)) as (D1 & D2 & D3).
  destruct (two_digits_bounds m ltac:(lia)) as (M1 & M2 & M3).
  destruct (four_digits_bounds y ltac:(lia)) as (Y1 & Y2 & Y3 & Y4 & Y5).
  rewrite (int_two_digits _ _ D1 D2), (int_two_digits _ _ M1 M2).
  unfold four_digits. rewrite (int_four_digits _ _ _ _ Y1 Y2 Y3 Y4).
  simpl rbind. rewrite D3, M3, Y5, Hc. reflexivity.
Qed.

Lemma Birthday_init_render y m d :
  valid_date y m d ->
  Birthday_init (render_DDMMYYYY y m d)
  = Ok (mkBirthday (mkdatetime y m d 0 0 0 0)).
Proof.
  intros Hv. unfold Birthday_init. rewrite (strptime_render y m d Hv).
  reflexivity.
Qed.

(** Rendering a valid date gives its zero-padded text when the year is
    written with four digits. *)
Lemma strftime_render style y m d :
  valid_date y m d -> style = PaddedYear \/ (1000 <= y)%Z ->
  strftime_dmY style (mkdatetime y m d 0 0 0 0) = render_DDMMYYYY y m d.
Proof.
  intros (Hy & Hm & Hd) Hs.
  pose proof (days_in_month_le_31 y m Hm) as Hdim.
  unfold MINYEAR, MAXYEAR in Hy.
  unfold strftime_dmY. simpl.
  rewrite (zfill2_digits d), (zfill2_digits m) by lia.
  rewrite (strftime_Y_four_digits style y) by (assumption || lia).
  reflexivity.
Qed.

(** C6, as the code has it. For every valid calendar date, [Birthday]
    accepts its zero-padded text DD.MM.YYYY and stores that date; rendering
    it back gives the identical text whenever the year has four digits of
    its own (1000..9999), and for earlier years too where the platform's
    [strftime] pads [%Y] with zeros. *)
Theorem Birthday_round_trip :
  forall (style : year_style) (y m d : Z),
    valid_date y m d ->
    style = PaddedYear \/ (1000 <= y)%Z ->
    Birthday_init (render_DDMMYYYY y m d)
      = Ok (mkBirthday (mkdatetime y m d 0 0 0 0))
    /\ Birthday_str style (mkBirthday (mkdatetime y m d 0 0 0 0))
       = render_DDMMYYYY y m d.
Proof.
  intros style y m d Hv Hs. split.
  - apply Birthday_init_render; assumption.
  - apply strftime_render; assumption.
Qed.

Lemma Birthday_round_trip_witness :
  valid_date 2000 2 29
  /\ Birthday_init (lit "29.02.2000")
     = Ok (mkBirthday (mkdatetime 2000 2 29 0 0 0 0))
  /\ Birthday_str PlainYear (mkBirthday (mkdatetime 2000 2 29 0 0 0 0))
     = lit "29.02.2000".
Proof.
  assert (Hv : valid_date 2000 2 29) by (vm_compute; intuition discriminate).
  split; [exact Hv|].
  apply (Birthday_round_trip PlainYear 2000 2 29 Hv).
  right. lia.
Defined.

(** C6 as stated fails where [strftime] writes the year as a plain number:
    1 January 999 is a valid date, its zero-padded text 01.01.0999 is
    accepted, and it is rendered back as 01.01.999. *)
Lemma Birthday_round_trip_fails_before_1000 :
  valid_date 999 1 1
  /\ render_DDMMYYYY 999 1 1 = lit "01.01.0999"
  /\ Birthday_init (render_DDMMYYYY 999 1 1)
     = Ok (mkBirthday (mkdatetime 999 1 1 0 0 0 0))
  /\ Birthday_str PlainYear (mkBirthday (mkdatetime 999 1 1 0 0 0 0))
     = lit "01.01.999"
  /\ Birthday_str PlainYear (mkBirthday (mkdatetime 999 1 1 0 0 0 0))
     <> render_DDMMYYYY 999 1 1.
Proof.
  split; [vm_compute; intuition discriminate|].
  repeat split; try (vm_compute; reflexivity).
  vm_compute. discriminate.
Qed.

Lemma dec_digits_chars fuel n :
  Forall (fun c => (48 <= c)%N) (dec_digits fuel n).
Proof.
  revert n. induction fuel as [|fuel IH]; intros n; simpl; [constructor|].
  destruct (n <? 10)%Z.
  - constructor; [unfold digit_char; lia | constructor].
  - apply Forall_app. split; [apply IH|].
    constructor; [unfold digit_char; lia | constructor].
Qed.

Lemma dec_digits_nonempty fuel n : dec_digits (S fuel) n <> [].
Proof.
  simpl. destruct (n <? 10)%Z; [discriminate|].
  destruct (dec_digits fuel (n / 10)); discriminate.
Qed.

(** The second character of a day written by [%d] is a digit or a later
    character, never the full stop. *)
Lemma zfill2_second n :
  exists c1 c2 rest,
    zfill 2 (str_of_Z n) = c1 :: c2 :: rest /\ (48 <= c2)%N.
Proof.
  unfold str_of_Z.
  pose proof (dec_digits_chars (S (Z.to_nat (Z.log2 n))) n) as Hall.
  pose proof (dec_digits_nonempty (Z.to_nat (Z.log2 n)) n) as Hne.
  destruct (dec_digits (S (Z.to_nat (Z.log2 n))) n) as [|a [|b s]];
    [contradiction| |].
  - exists (ch "0"), a, []. split; [reflexivity|].
    now inversion Hall.
  - exists a, b, s. split; [reflexivity|].
    inversion Hall as [|? ? _ Hall']. now inversion Hall'.
Qed.

Lemma Birthday_str_not_short style b : Birthday_str style b <> lit "5.6.1990".
Proof.
  unfold Birthday_str, strftime_dmY.
  destruct (zfill2_second (day (birthday_value b))) as (c1 & c2 & rest & -> & Hc).
  simpl. intros H. injection H as _ H2 _. subst c2. vm_compute in Hc.
  now apply Hc.
Qed.

(** ** [AddressBook] *)

Lemma dict_set_keys_present {V} (d : list (pystr * V)) k v :
  In k (dict_keys d) -> dict_keys (dict_set d k v) = dict_keys d.
Proof.
  induction d as [|[k0 v0] d IH]; simpl; [intros []|].
  destruct (str_eqb k0 k) eqn:E; simpl; [reflexivity|].
  intros [H|H].
  - subst k0. rewrite str_eqb_refl in E. discriminate.
  - now rewrite IH.
Qed.

(** C7. [add_record] stores the record under its name and raises nothing;
    a second [add_record] with a record of the same name takes the place
    of the first: the name then leads to the second record, no entry of
    the book under that name holds anything else (so the phones of the
    first record are gone), the book has as many entries as after the
    first call, and the entries under other names are untouched. *)
Theorem add_record_overwrites :
  forall (book : AddressBook) (r1 r2 : ContactRecord),
    unique_keys book ->
    name_value (name r1) = name_value (name r2) ->
    let book1 := snd (add_record r1 book) in
    let book2 := snd (add_record r2 book1) in
    fst (add_record r1 book) = Ok tt
    /\ fst (add_record r2 book1) = Ok tt
    /\ find (name_value (name r1)) book1 = Some r1
    /\ find (name_value (name r2)) book2 = Some r2
    /\ (forall k r, In (k, r) book2 -> k = name_value (name r2) -> r = r2)
    /\ dict_keys book2 = dict_keys book1
    /\ unique_keys book2
    /\ (forall k, k <> name_value (name r2) -> find k book2 = find k book).
Proof.
  intros book r1 r2 Hu Hn book1 book2. subst book1 book2.
  unfold add_record, find. simpl.
  split; [reflexivity|]. split; [reflexivity|].
  split; [apply dict_get_set_same|]. split; [apply dict_get_set_same|].
  assert (Hu1 : unique_keys (dict_set book (name_value (name r1)) r1))
    by now apply dict_set_unique.
  split.
  { intros k r Hin Hk.
    destruct (dict_set_in _ _ _ _ _ Hu1 Hin) as [[_ ->]|[Hne _]];
      [reflexivity | contradiction]. }
  split.
  { apply dict_set_keys_present. rewrite <- Hn.
    apply dict_set_keys_in. now left. }
  split; [now apply dict_set_unique|].
  intros k Hk. rewrite dict_get_set_other by assumption.
  apply dict_get_set_other. congruence.
Qed.

Lemma add_record_overwrites_witness :
  find (lit "Ann")
    (snd (add_record (mkRecord (mkName (lit "Ann")) [] None)
       (snd (add_record (record_with_phone "Ann" "0000000000") []))))
  = Some (mkRecord (mkName (lit "Ann")) [] None).
Proof.
  refine (proj1 (proj2 (proj2 (proj2
    (add_record_overwrites [] (record_with_phone "Ann" "0000000000")
       (mkRecord (mkName (lit "Ann")) [] None) _ _))))).
  - constructor.
  - reflexivity.
Defined.

Lemma keys_are_names_set book k r :
  keys_are_names book -> k = name_value (name r) ->
  keys_are_names (dict_set book k r).
Proof.
  unfold keys_are_names. intros H Hk.
  induction H as [|[k0 r0] book Hkv Hrest IH]; simpl.
  - constructor; [exact Hk | constructor].
  - destruct (str_eqb k0 k) eqn:E.
    + apply str_eqb_eq in E. subst k0. constructor; [exact Hk | assumption].
    + constructor; assumption.
Qed.

Lemma keys_are_names_del book k :
  keys_are_names book -> keys_are_names (dict_del book k).
Proof.
  unfold keys_are_names, dict_del. intros H.
  induction H as [|kv book Hkv _ IH]; simpl; [constructor|].
  destruct (negb (str_eqb (fst kv) k)); [constructor|]; assumption.
Qed.

(** Under the invariant, what [find] returns bears the name asked for. *)
Lemma find_name book nm record :
  keys_are_names book -> find nm book = Some record ->
  name_value (name record) = nm.
Proof.
  unfold keys_are_names, find. intros H.
  induction H as [|[k0 r0] book Hkv _ IH]; simpl; [discriminate|].
  destruct (str_eqb k0 nm) eqn:E.
  - intros H. injection H as <-. apply str_eqb_eq in E. simpl in Hkv. congruence.
  - exact IH.
Qed.

Lemma on_record_keys_are_names {A} book nm record (m : M ContactRecord A) :
  keys_are_names book -> find nm book = Some record ->
  name (snd (m record)) = name record ->
  keys_are_names (snd (on_record nm record m book)).
Proof.
  intros Hinv Hfind Hname. unfold on_record.
  destruct (m record) as [res record'] eqn:Em. simpl in *.
  apply keys_are_names_set; [assumption|].
  rewrite Hname. symmetry. eapply find_name; eassumption.
Qed.

Lemma Record_init_name nm record :
  Record_init nm = Ok record -> name_value (name record) = nm.
Proof.
  unfold Record_init, Name_init. destruct (strip nm); simpl; [discriminate|].
  intros H. injection H as <-. reflexivity.
Qed.

Lemma cmd_add_keys_are_names args book :
  keys_are_names book -> keys_are_names (snd (cmd_add args book)).
Proof.
  intros Hinv. unfold cmd_add, bind, lift, ret, add_record.
  destruct (index args 0) as [a0|e]; simpl; [|assumption].
  destruct (Record_init a0) as [record|e] eqn:Er; simpl; [|assumption].
  apply keys_are_names_set; [assumption|].
  apply Record_init_name in Er. congruence.
Qed.

Lemma cmd_change_keys_are_names args book :
  keys_are_names book -> keys_are_names (snd (cmd_change args book)).
Proof.
  intros Hinv. unfold cmd_change, bind, lift, ret, raise, get.
  destruct (index args 0) as [a0|e]; simpl; [|assumption].
  destruct (find a0 book) as [record|] eqn:Ef; simpl; [|assumption].
  destruct (index args 1) as [a1|e]; simpl; [|assumption].
  destruct (index args 2) as [a2|e]; simpl; [|assumption].
  pose proof (on_record_keys_are_names book a0 record (edit_phone a1 a2)
                Hinv Ef (proj1 (edit_phone_frame a1 a2 record))) as H.
  destruct (on_record a0 record (edit_phone a1 a2) book) as [[u|e] book'];
    exact H.
Qed.

Lemma add_birthday_cmd_keys_are_names args book :
  keys_are_names book -> keys_are_names (snd (add_birthday_cmd args book)).
Proof.
  intros Hinv. unfold add_birthday_cmd. rewrite input_error_state.
  unfold add_birthday_body, bind, ret, raise, get.
  destruct args as [|nm [|bday [|? ?]]]; simpl; try assumption.
  destruct (find nm book) as [record|] eqn:Ef; simpl; [|assumption].
  pose proof (on_record_keys_are_names book nm record (add_birthday bday)
                Hinv Ef (add_birthday_name bday record)) as H.
  destruct (on_record nm record (add_birthday bday) book) as [[u|e] book'];
    exact H.
Qed.

Lemma show_birthday_state style args book :
  snd (show_birthday style args book) = book.
Proof.
  unfold show_birthday. rewrite input_error_state.
  unfold show_birthday_body, bind, ret, raise, get.
  destruct args as [|nm [|? ?]]; simpl; try reflexivity.
  destruct (find nm book) as [record|]; simpl; [|reflexivity].
  destruct (birthday record); reflexivity.
Qed.

Lemma birthdays_state style today args book :
  snd (birthdays style today args book) = book.
Proof.
  unfold birthdays. rewrite input_error_state.
  unfold birthdays_body, bind, ret, get, lift. simpl.
  destruct (get_upcoming_birthdays style today book) as [[|? ?]|e];
    reflexivity.
Qed.

Lemma cmd_phone_state style args book : snd (cmd_phone style args book) = book.
Proof.
  unfold cmd_phone, bind, ret, get, lift.
  destruct (index args 0) as [a0|e]; simpl; [|reflexivity].
  destruct (find a0 book); reflexivity.
Qed.

(** Every command leaves the invariant in place. *)
Lemma handle_command_keys_are_names style today command args book :
  keys_are_names book ->
  keys_are_names (snd (handle_command style today command args book)).
Proof.
  intros Hinv. unfold handle_command, commands, dict_get.
  repeat match goal with
         | |- context [if str_eqb ?a command then _ else _] =>
             destruct (str_eqb a command)
         end.
  - now apply cmd_add_keys_are_names.
  - now apply cmd_change_keys_are_names.
  - now rewrite cmd_phone_state.
  - exact Hinv.
  - now apply add_birthday_cmd_keys_are_names.
  - now rewrite show_birthday_state.
  - now rewrite birthdays_state.
  - exact Hinv.
  - exact Hinv.
  - exact Hinv.
  - exact Hinv.
Qed.

(** C8. In every book reached from the empty one by [add_record],
    [delete], the methods of the records found in it and the commands,
    each record is stored under its own name. [add_record], [delete] and
    every command keep it so; [find] and [get_upcoming_birthdays] only
    read the book (they return no new book), and the record [find]
    returns bears the name it was asked for. *)
Theorem reachable_keys_are_names :
  forall book : AddressBook,
    reachable book ->
    keys_are_names book
    /\ (forall record, keys_are_names (snd (add_record record book)))
    /\ (forall nm, keys_are_names (snd (delete nm book)))
    /\ (forall nm record,
          find nm book = Some record -> name_value (name record) = nm)
    /\ (forall style today command args,
          keys_are_names (snd (handle_command style today command args book))).
Proof.
  intros book Hreach.
  assert (Hinv : keys_are_names book).
  { induction Hreach as [|book record _ IH|book nm _ IH
                         |book nm record m _ IH Hf
                         |book style today command args _ IH].
    - constructor.
    - unfold add_record; simpl. now apply keys_are_names_set.
    - unfold delete. destruct (dict_get book nm); simpl;
        [now apply keys_are_names_del | assumption].
    - apply on_record_keys_are_names; [assumption | assumption |].
      apply call_name.
    - now apply handle_command_keys_are_names. }
  split; [exact Hinv|].
  split; [intros record; unfold add_record; simpl;
          now apply keys_are_names_set|].
  split; [intros nm; unfold delete; destruct (dict_get book nm); simpl;
          [now apply keys_are_names_del | assumption]|].
  split; [intros nm record; now apply find_name|].
  intros. now apply handle_command_keys_are_names.
Qed.

Lemma reachable_keys_are_names_witness :
  keys_are_names (book_with_birthday "Alice" "12.06.1990").
Proof.
  refine (proj1 (reachable_keys_are_names
                   (book_with_birthday "Alice" "12.06.1990") _)).
  unfold book_with_birthday. apply reach_command. apply reach_command.
  apply reach_empty.
Defined.

(** ** [Name] and white space *)

Lemma lstrip_nil_iff s : lstrip s = [] <-> forallb isspace_char s = true.
Proof.
  induction s as [|c s IH]; simpl; [tauto|].
  destruct (isspace_char c); simpl; [exact IH|].
  split; discriminate.
Qed.

Lemma forallb_rev {A} (f : A -> bool) (l : list A) :
  forallb f (rev l) = forallb f l.
Proof.
  induction l as [|x l IH]; simpl; [reflexivity|].
  rewrite forallb_app, IH. simpl. rewrite andb_true_r. apply andb_comm.
Qed.

Lemma lstrip_head s c t : lstrip s = c :: t -> isspace_char c = false.
Proof.
  induction s as [|x s IH]; simpl; [discriminate|].
  destruct (isspace_char x) eqn:E; [exact IH|].
  intros H. injection H as <- _. exact E.
Qed.

Lemma strip_nil_iff s : strip s = [] <-> forallb isspace_char s = true.
Proof.
  unfold strip, rstrip. rewrite <- lstrip_nil_iff. split.
  - intros H. apply (f_equal (@rev N)) in H. rewrite rev_involutive in H.
    simpl in H. apply lstrip_nil_iff in H. rewrite forallb_rev in H.
    destruct (lstrip s) as [|c t] eqn:E; [reflexivity|].
    apply lstrip_head in E. simpl in H. rewrite E in H. discriminate.
  - intros ->. reflexivity.
Qed.

(** X1. [Name(value)] raises [ValueError] exactly when every character of
    [value] is white space (the empty text included); otherwise it keeps
    [value] as given, white space around it included. *)
Theorem Name_init_spec :
  forall value : pystr,
    Name_init value
    = if forallb isspace_char value
      then Raise (ValueError (lit "Name cannot be empty."))
      else Ok (mkName value).
Proof.
  intros value. unfold Name_init.
  destruct (forallb isspace_char value) eqn:E.
  - apply strip_nil_iff in E. rewrite E. reflexivity.
  - destruct (strip value) eqn:Es; [|reflexivity].
    apply strip_nil_iff in Es. congruence.
Qed.

(** ** [parse_input] *)

Lemma split_ws_words cur s :
  no_space cur -> Forall is_word (split_ws cur s).
Proof.
  revert cur. induction s as [|c s IH]; intros cur Hcur; simpl.
  - destruct cur; constructor; [|constructor].
    split; [discriminate | assumption].
  - destruct (isspace_char c) eqn:E.
    + destruct cur.
      * apply IH. constructor.
      * constructor; [split; [discriminate | assumption]|].
        apply IH. constructor.
    + apply IH. apply Forall_app. split; [assumption|].
      constructor; [exact E | constructor].
Qed.

Lemma split_ws_blank s :
  forallb isspace_char s = true -> split_ws [] s = [].
Proof.
  induction s as [|c s IH]; simpl; [reflexivity|].
  destruct (isspace_char c); simpl; [exact IH | discriminate].
Qed.

Lemma split_ws_word cur w rest :
  no_space w -> split_ws cur (w ++ rest) = split_ws (cur ++ w) rest.
Proof.
  intros Hw. revert cur. induction Hw as [|c w Hc _ IH]; intros cur; simpl.
  - now rewrite app_nil_r.
  - rewrite Hc, IH, <- app_assoc. reflexivity.
Qed.

Lemma split_ws_join w ws :
  is_word w -> Forall is_word ws ->
  split_ws [] (join [32%N] (w :: ws)) = w :: ws.
Proof.
  intros Hw Hws. revert w Hw. induction Hws as [|w' ws Hw' _ IH]; intros w Hw.
  - simpl. rewrite <- (app_nil_r w) at 1.
    rewrite split_ws_word by apply Hw. simpl.
    destruct w; [now destruct Hw | reflexivity].
  - change (join [32%N] (w :: w' :: ws))
      with (w ++ [32%N] ++ join [32%N] (w' :: ws)).
    rewrite split_ws_word by apply Hw. simpl.
    destruct w as [|c w]; [now destruct Hw|].
    simpl. f_equal. apply IH. exact Hw'.
Qed.

Lemma split_ws_started cur s : cur <> [] -> split_ws cur s <> [].
Proof.
  revert cur. induction s as [|c s IH]; intros cur Hc; simpl.
  - destruct cur; [contradiction | discriminate].
  - destruct (isspace_char c).
    + destruct cur; [contradiction | discriminate].
    + apply IH. now destruct cur.
Qed.

Lemma split_ws_nonblank cur s :
  forallb isspace_char s = false -> split_ws cur s <> [].
Proof.
  revert cur. induction s as [|c s IH]; intros cur Hs; simpl in *;
    [discriminate|].
  destruct (isspace_char c); simpl in Hs.
  - destruct cur; [now apply IH | discriminate].
  - apply split_ws_started. now destruct cur.
Qed.

(** X2. A line without a word (empty or white space only) makes
    [parse_input] raise [IndexError]; any other line gives a command and
    arguments that are words: not empty and free of white space. *)
Theorem parse_input_spec :
  forall user_input : pystr,
    (forallb isspace_char user_input = true ->
     parse_input user_input
     = Raise (IndexError (lit "list index out of range")))
    /\ (forallb isspace_char user_input = false ->
        exists command args,
          parse_input user_input = Ok (command, args)
          /\ is_word command /\ Forall is_word args).
Proof.
  intros user_input. unfold parse_input, split. split.
  - intros H. rewrite (split_ws_blank _ H). reflexivity.
  - intros H.
    pose proof (split_ws_words [] user_input (Forall_nil _)) as Hw.
    destruct (split_ws [] user_input) as [|command args] eqn:E.
    + exfalso. exact (split_ws_nonblank _ _ H E).
    + exists command, args. inversion Hw; subst. simpl. auto.
Qed.

Lemma parse_input_spec_witness :
  exists command args,
    parse_input (lit "  add   Alice ") = Ok (command, args)
    /\ is_word command /\ Forall is_word args.
Proof.
  apply (proj2 (parse_input_spec (lit "  add   Alice "))).
  vm_compute. reflexivity.
Defined.

(** X3. Joining a command and its arguments with single spaces and
    parsing the line gives them back, when each is a word. *)
Theorem parse_input_join :
  forall (command : pystr) (args : list pystr),
    is_word command -> Forall is_word args ->
    parse_input (join [32%N] (command :: args)) = Ok (command, args).
Proof.
  intros command args Hc Ha. unfold parse_input, split.
  rewrite (split_ws_join command args Hc Ha). reflexivity.
Qed.

Lemma parse_input_join_witness :
  parse_input (lit "change Ann 0000000000 1111111111")
  = Ok (lit "change", [lit "Ann"; lit "0000000000"; lit "1111111111"]).
Proof.
  apply (parse_input_join (lit "change")
           [lit "Ann"; lit "0000000000"; lit "1111111111"]).
  - split; [discriminate|]. repeat constructor.
  - repeat constructor; discriminate.
Defined.

(** ** What [Birthday] accepts *)

Lemma check_date_fields_ok_inv y m d :
  _check_date_fields y m d = Ok tt -> valid_date y m d.
Proof.
  unfold _check_date_fields, valid_date.
  destruct ((MINYEAR <=? y) && (y <=? MAXYEAR))%Z eqn:Ey; simpl;
    [|discriminate].
  destruct ((1 <=? m) && (m <=? 12))%Z eqn:Em; simpl; [|discriminate].
  destruct ((1 <=? d) && (d <=? _days_in_month y m))%Z eqn:Ed; simpl;
    [|discriminate].
  intros _.
  apply andb_true_iff in Ey as [Ey1 Ey2], Em as [Em1 Em2], Ed as [Ed1 Ed2].
  apply Z.leb_le in Ey1, Ey2, Em1, Em2, Ed1, Ed2. lia.
Qed.

Lemma check_date_fields_raises y m d e :
  _check_date_fields y m d = Raise e -> exists msg, e = ValueError msg.
Proof.
  unfold _check_date_fields.
  repeat match goal with
         | |- context [if ?c then _ else _] => destruct c
         end; intros H; try discriminate; injection H as <-; eauto.
Qed.

Lemma int_raises s e : int s = Raise e -> exists msg, e = ValueError msg.
Proof.
  unfold int. destruct (strip s) as [|c t];
    [intros H; injection H as <-; eauto|].
  destruct (digits_value 0 (c :: t)); intros H;
    [discriminate | injection H as <-; eauto].
Qed.

Lemma strptime_ok_inv s dt :
  strptime_dmY s = Ok dt ->
  exists y m d, dt = mkdatetime y m d 0 0 0 0 /\ valid_date y m d.
Proof.
  unfold strptime_dmY.
  destruct (re_dmY s) as [[[[gd gm] gy] rest]|]; [|discriminate].
  destruct rest; [|discriminate].
  destruct (int gd) as [vd|]; simpl; [|discriminate].
  destruct (int gm) as [vm|]; simpl; [|discriminate].
  destruct (int gy) as [vy|]; simpl; [|discriminate].
  destruct (_check_date_fields vy vm vd) as [[]|] eqn:Ec; simpl;
    [|discriminate].
  intros H. injection H as <-. exists vy, vm, vd.
  split; [reflexivity | now apply check_date_fields_ok_inv].
Qed.

Lemma strptime_raises s e :
  strptime_dmY s = Raise e -> exists msg, e = ValueError msg.
Proof.
  unfold strptime_dmY.
  destruct (re_dmY s) as [[[[gd gm] gy] rest]|];
    [|intros H; injection H as <-; eauto].
  destruct rest; [|intros H; injection H as <-; eauto].
  destruct (int gd) as [vd|] eqn:E1; simpl; [|intros H; injection H as <-;
    eapply int_raises; eassumption].
  destruct (int gm) as [vm|] eqn:E2; simpl; [|intros H; injection H as <-;
    eapply int_raises; eassumption].
  destruct (int gy) as [vy|] eqn:E3; simpl; [|intros H; injection H as <-;
    eapply int_raises; eassumption].
  destruct (_check_date_fields vy vm vd) as [[]|] eqn:Ec; simpl;
    [discriminate|].
  intros H. injection H as <-. eapply check_date_fields_raises; eassumption.
Qed.

Lemma Birthday_init_ok_inv s b :
  Birthday_init s = Ok b ->
  exists y m d,
    b = mkBirthday (mkdatetime y m d 0 0 0 0) /\ valid_date y m d.
Proof.
  unfold Birthday_init. destruct (strptime_dmY s) as [dt|e] eqn:E.
  - intros H. injection H as <-.
    destruct (strptime_ok_inv s dt E) as (y & m & d & -> & Hv). eauto.
  - destruct e; discriminate.
Qed.

(** X4. Whatever text [Birthday] accepts, the date it stores is a valid
    calendar date (year 1..9999, month 1..12, a day the month has in that
    year) at midnight. *)
Theorem Birthday_init_valid :
  forall (s : pystr) (b : Birthday),
    Birthday_init s = Ok b ->
    valid_date (year (birthday_value b)) (month (birthday_value b))
               (day (birthday_value b))
    /\ hour (birthday_value b) = 0%Z /\ minute (birthday_value b) = 0%Z
    /\ second (birthday_value b) = 0%Z
    /\ microsecond (birthday_value b) = 0%Z.
Proof.
  intros s b H.
  destruct (Birthday_init_ok_inv s b H) as (y & m & d & -> & Hv).
  simpl. auto.
Qed.

Lemma Birthday_init_valid_witness :
  valid_date 2000 2 29.
Proof.
  apply (Birthday_init_valid (lit "29.2.2000")
           (mkBirthday (mkdatetime 2000 2 29 0 0 0 0))).
  vm_compute. reflexivity.
Defined.

(** X5. [Birthday] fails in one way only: whatever is wrong with the text
    (no match, text left over, a date that does not exist), the exception
    is [ValueError] with the message of the class. *)
Theorem Birthday_init_one_error :
  forall s : pystr,
    (exists b, Birthday_init s = Ok b)
    \/ Birthday_init s
       = Raise (ValueError (lit "Invalid date format. Use DD.MM.YYYY")).
Proof.
  intros s. unfold Birthday_init.
  destruct (strptime_dmY s) as [dt|e] eqn:E; [left; eauto|].
  destruct (strptime_raises s e E) as [msg ->]. now right.
Qed.

(** X6. The rendering of an accepted birthday is accepted again and gives
    the same birthday, where the year is written with four digits (year
    1000 or later, or a platform that pads); it has ten characters. *)
Theorem Birthday_str_reparses :
  forall (style : year_style) (s : pystr) (b : Birthday),
    Birthday_init s = Ok b ->
    style = PaddedYear \/ (1000 <= year (birthday_value b))%Z ->
    Birthday_init (Birthday_str style b) = Ok b
    /\ List.length (Birthday_str style b) = 10%nat.
Proof.
  intros style s b H Hs.
  destruct (Birthday_init_ok_inv s b H) as (y & m & d & -> & Hv).
  unfold Birthday_str. simpl birthday_value in *. simpl in Hs.
  rewrite (strftime_render style y m d Hv Hs).
  split; [now apply Birthday_init_render | reflexivity].
Qed.

Lemma Birthday_str_reparses_witness :
  Birthday_init (Birthday_str PlainYear
                   (mkBirthday (mkdatetime 1990 6 5 0 0 0 0)))
  = Ok (mkBirthday (mkdatetime 1990 6 5 0 0 0 0))
  /\ List.length (Birthday_str PlainYear
                    (mkBirthday (mkdatetime 1990 6 5 0 0 0 0))) = 10%nat.
Proof.
  apply (Birthday_str_reparses PlainYear (lit "5.6.1990")).
  - vm_compute. reflexivity.
  - right. simpl. lia.
Defined.

(** C10, as the code has it. The text 5.6.1990 is not of the zero-padded
    form, yet [Birthday] accepts it, as 5 June 1990, and renders it as
    05.06.1990; no birthday is ever rendered as 5.6.1990. What [Birthday]
    renders it also accepts, giving the same birthday, whenever the year
    is written with four digits (year 1000 or later, or a platform that
    pads); the same holds for every zero-padded text of a valid date. So
    there the accepted texts are strictly more than the rendered ones. *)
Theorem Birthday_accepts_more_than_it_renders :
  Birthday_init (lit "5.6.1990") = Ok (mkBirthday (mkdatetime 1990 6 5 0 0 0 0))
  /\ (forall style,
        Birthday_str style (mkBirthday (mkdatetime 1990 6 5 0 0 0 0))
        = lit "05.06.1990")
  /\ (forall style b, Birthday_str style b <> lit "5.6.1990")
  /\ (forall style s b,
        Birthday_init s = Ok b ->
        style = PaddedYear \/ (1000 <= year (birthday_value b))%Z ->
        Birthday_init (Birthday_str style b) = Ok b)
  /\ (forall y m d, render_DDMMYYYY y m d <> lit "5.6.1990")
  /\ (forall y m d, valid_date y m d ->
        Birthday_init (render_DDMMYYYY y m d)
        = Ok (mkBirthday (mkdatetime y m d 0 0 0 0))).
Proof.
  split; [vm_compute; reflexivity|].
  split; [intros []; vm_compute; reflexivity|].
  split; [apply Birthday_str_not_short|].
  split.
  { intros style s b H Hs.
    destruct (Birthday_init_ok_inv s b H) as (y & m & d & -> & Hv).
    unfold Birthday_str. simpl in *.
    rewrite (strftime_render style y m d Hv Hs).
    now apply Birthday_init_render. }
  split.
  { intros y m d H. apply (f_equal (@List.length N)) in H. discriminate H. }
  apply Birthday_init_render.
Qed.

Lemma Birthday_accepts_more_than_it_renders_witness :
  Birthday_init
    (Birthday_str PlainYear (mkBirthday (mkdatetime 1990 6 5 0 0 0 0)))
  = Ok (mkBirthday (mkdatetime 1990 6 5 0 0 0 0)).
Proof.
  apply (proj1 (proj2 (proj2 (proj2 Birthday_accepts_more_than_it_renders)))
           PlainYear (lit "5.6.1990")).
  - vm_compute. reflexivity.
  - right. simpl. lia.
Defined.

(** C10 as stated fails where [strftime] writes the year as a plain
    number: [Birthday] accepts 01.01.0999, renders that birthday as
    01.01.999, and refuses this rendering. The rendered texts are then
    not all among the accepted ones. *)
Lemma Birthday_refuses_its_rendering_before_1000 :
  Birthday_init (lit "01.01.0999")
  = Ok (mkBirthday (mkdatetime 999 1 1 0 0 0 0))
  /\ Birthday_str PlainYear (mkBirthday (mkdatetime 999 1 1 0 0 0 0))
     = lit "01.01.999"
  /\ Birthday_init (lit "01.01.999")
     = Raise (ValueError (lit "Invalid date format. Use DD.MM.YYYY")).
Proof. repeat split; vm_compute; reflexivity. Qed.

Section RegexInversion.
Context {A : Type}.
Implicit Types (k : pystr -> pystr -> option A) (s : pystr).

Lemma re2_inv p1 p2 s k x :
  re2 p1 p2 s k = Some x ->
  exists g r, s = g ++ r /\ List.length g = 2%nat /\ k g r = Some x.
Proof.
  unfold re2. destruct s as [|c1 [|c2 r]]; try discriminate.
  destruct (p1 c1 && p2 c2); [|discriminate].
  intros H. exists [c1; c2], r. auto.
Qed.

Lemma re1_inv p s k x :
  re1 p s k = Some x ->
  exists g r, s = g ++ r /\ List.length g = 1%nat /\ k g r = Some x.
Proof.
  unfold re1. destruct s as [|c r]; try discriminate.
  destruct (p c); [|discriminate].
  intros H. exists [c], r. auto.
Qed.

Lemma orelse_inv (a b : option A) x :
  orelse a b = Some x -> a = Some x \/ b = Some x.
Proof. destruct a; simpl; auto. Qed.

Lemma re_d_inv s k x :
  re_d s k = Some x ->
  exists g r, s = g ++ r /\ (1 <= List.length g <= 2)%nat /\ k g r = Some x.
Proof.
  unfold re_d. intros H.
  repeat (apply orelse_inv in H as [H|H]);
    (apply re2_inv in H || apply re1_inv in H);
    destruct H as (g & r & -> & Hl & Hk); exists g, r;
    (split; [reflexivity | split; [lia | exact Hk]]).
Qed.

Lemma re_m_inv s k x :
  re_m s k = Some x ->
  exists g r, s = g ++ r /\ (1 <= List.length g <= 2)%nat /\ k g r = Some x.
Proof.
  unfold re_m. intros H.
  repeat (apply orelse_inv in H as [H|H]);
    (apply re2_inv in H || apply re1_inv in H);
    destruct H as (g & r & -> & Hl & Hk); exists g, r;
    (split; [reflexivity | split; [lia | exact Hk]]).
Qed.

Lemma re_Y_inv s k x :
  re_Y s k = Some x ->
  exists g r, s = g ++ r /\ List.length g = 4%nat /\ k g r = Some x.
Proof.
  unfold re_Y. destruct s as [|c1 [|c2 [|c3 [|c4 r]]]]; try discriminate.
  destruct (isdecimal_char c1 && isdecimal_char c2
            && isdecimal_char c3 && isdecimal_char c4); [|discriminate].
  intros H. exists [c1; c2; c3; c4], r. auto.
Qed.

Lemma re_dot_inv s (k : pystr -> option A) x :
  re_dot s k = Some x -> exists r, s = ch "." :: r /\ k r = Some x.
Proof.
  unfold re_dot. destruct s as [|c r]; [discriminate|].
  destruct (is_char "." c) eqn:E; [|discriminate].
  apply N.eqb_eq in E. subst c. eauto.
Qed.
End RegexInversion.

(** A match of the pattern splits the text into the day, a full stop, the
    month, a full stop, the year and what is left. *)
Lemma re_dmY_inv s gd gm gy rest :
  re_dmY s = Some (gd, gm, gy, rest) ->
  s = gd ++ ch "." :: gm ++ ch "." :: gy ++ rest
  /\ (1 <= List.length gd <= 2)%nat /\ (1 <= List.length gm <= 2)%nat
  /\ List.length gy = 4%nat.
Proof.
  unfold re_dmY. intros H.
  apply re_d_inv in H as (g1 & r1 & -> & L1 & H).
  apply re_dot_inv in H as (r2 & -> & H).
  apply re_m_inv in H as (g2 & r3 & -> & L2 & H).
  apply re_dot_inv in H as (r4 & -> & H).
  apply re_Y_inv in H as (g3 & r5 & -> & L3 & H).
  injection H as <- <- <- <-. auto.
Qed.

(** X7. A text [Birthday] accepts is a day of one or two characters, a
    full stop, a month of one or two characters, a full stop and a year of
    four characters, with nothing before or after, so it has between eight
    and ten characters; the three parts, read as numbers, are the day, the
    month and the year of the stored date. *)
Theorem Birthday_init_shape :
  forall (s : pystr) (b : Birthday),
    Birthday_init s = Ok b ->
    exists gd gm gy : pystr,
      s = gd ++ ch "." :: gm ++ ch "." :: gy
      /\ (1 <= List.length gd <= 2)%nat
      /\ (1 <= List.length gm <= 2)%nat
      /\ List.length gy = 4%nat
      /\ int gd = Ok (day (birthday_value b))
      /\ int gm = Ok (month (birthday_value b))
      /\ int gy = Ok (year (birthday_value b))
      /\ (8 <= List.length s <= 10)%nat.
Proof.
  intros s b. unfold Birthday_init.
  destruct (strptime_dmY s) as [dt|e] eqn:E0; [|destruct e; discriminate].
  intros H. injection H as <-. simpl. revert E0. unfold strptime_dmY.
  destruct (re_dmY s) as [[[[gd gm] gy] rest]|] eqn:E; [|discriminate].
  destruct rest; [|discriminate].
  apply re_dmY_inv in E as (-> & L1 & L2 & L3).
  destruct (int gd) as [vd|] eqn:Ed; simpl; [|discriminate].
  destruct (int gm) as [vm|] eqn:Em; simpl; [|discriminate].
  destruct (int gy) as [vy|] eqn:Ey; simpl; [|discriminate].
  destruct (_check_date_fields vy vm vd) as [[]|]; simpl; [|discriminate].
  intros H. injection H as <-. simpl.
  exists gd, gm, gy. rewrite app_nil_r.
  repeat (split; [first [reflexivity | lia | assumption]|]).
  rewrite length_app. simpl. rewrite length_app. simpl. lia.
Qed.

Lemma Birthday_init_shape_witness :
  exists gd gm gy : pystr,
    lit "5.6.1990" = gd ++ ch "." :: gm ++ ch "." :: gy
    /\ (1 <= List.length gd <= 2)%nat
    /\ (1 <= List.length gm <= 2)%nat
    /\ List.length gy = 4%nat
    /\ int gd = Ok 5%Z /\ int gm = Ok 6%Z /\ int gy = Ok 1990%Z
    /\ (8 <= List.length (lit "5.6.1990") <= 10)%nat.
Proof.
  apply (Birthday_init_shape (lit "5.6.1990")
           (mkBirthday (mkdatetime 1990 6 5 0 0 0 0))).
  vm_compute. reflexivity.
Defined.

(** ** Finding, adding, removing and editing phones *)

Lemma find_phone_none_iff phone r :
  find_phone phone r = None <-> ~ has_phone phone r.
Proof.
  unfold find_phone, has_phone. split.
  - intros H (p & Hin & Hp).
    pose proof (find_none _ _ H p Hin) as Hf. simpl in Hf.
    subst phone. rewrite str_eqb_refl in Hf. discriminate.
  - intros H.
    destruct (List.find (fun p => str_eqb (phone_value p) phone) (phones r))
      as [p|] eqn:E; [|reflexivity].
    exfalso. apply H. apply find_some in E as [Hin Hp].
    apply str_eqb_eq in Hp. eauto.
Qed.

(** The first phone of a given value, with what stands before and after. *)
Lemma first_phone phone (ps : list Phone) :
  (exists p, In p ps /\ phone_value p = phone) ->
  exists pre p post,
    ps = pre ++ p :: post /\ phone_value p = phone
    /\ Forall (fun q => phone_value q <> phone) pre.
Proof.
  induction ps as [|q ps IH]; intros (p & Hin & Hp); [destruct Hin|].
  destruct (str_eqb (phone_value q) phone) eqn:E.
  - apply str_eqb_eq in E. exists [], q, ps. repeat split; auto.
  - apply str_eqb_neq in E.
    destruct Hin as [->|Hin]; [contradiction|].
    destruct IH as (pre & p' & post & -> & Hp' & Hpre); [eauto|].
    exists (q :: pre), p', post. repeat split; auto.
Qed.

Lemma find_first ps pre p post phone :
  ps = pre ++ p :: post -> phone_value p = phone ->
  Forall (fun q => phone_value q <> phone) pre ->
  List.find (fun q => str_eqb (phone_value q) phone) ps = Some p.
Proof.
  intros -> Hp Hpre. induction Hpre as [|q pre Hq _ IH]; simpl.
  - rewrite Hp, str_eqb_refl. reflexivity.
  - apply str_eqb_neq in Hq. rewrite Hq. exact IH.
Qed.

(** X8. [find_phone] returns the first phone of the value asked for, and
    [None] exactly when the record has no phone of that value. *)
Theorem find_phone_spec :
  forall (phone : pystr) (r : ContactRecord),
    (find_phone phone r = None <-> ~ has_phone phone r)
    /\ (forall p, find_phone phone r = Some p <->
          exists pre post,
            phones r = pre ++ p :: post /\ phone_value p = phone
            /\ Forall (fun q => phone_value q <> phone) pre).
Proof.
  intros phone r. split; [apply find_phone_none_iff|].
  intros p. split.
  - intros H.
    assert (Hhas : exists q, In q (phones r) /\ phone_value q = phone).
    { unfold find_phone in H. apply find_some in H as [Hin Hp].
      apply str_eqb_eq in Hp. eauto. }
    destruct (first_phone phone (phones r) Hhas)
      as (pre & q & post & Hr & Hq & Hpre).
    unfold find_phone in H.
    rewrite (find_first _ _ _ _ _ Hr Hq Hpre) in H. injection H as <-.
    eauto.
  - intros (pre & post & Hr & Hp & Hpre). unfold find_phone.
    eapply find_first; eassumption.
Qed.

Lemma Phone_init_value phone p : Phone_init phone = Ok p -> phone_value p = phone.
Proof.
  rewrite Phone_init_eq.
  destruct (Nat.eqb (List.length phone) 10 && forallb isdigit_char phone);
    [|discriminate].
  intros H. injection H as <-. reflexivity.
Qed.

(** X9. A phone that [Phone] accepts is added at the end of the list, also
    when the record already has it, and [find_phone] then finds a phone
    of that value; a phone that [Phone] refuses raises that error and
    leaves the record as it was. *)
Theorem add_phone_spec :
  forall (phone : pystr) (r : ContactRecord),
    (forall p, Phone_init phone = Ok p ->
       add_phone phone r = (Ok tt, set_phones (phones r ++ [p]) r)
       /\ List.length (phones (snd (add_phone phone r)))
          = S (List.length (phones r))
       /\ exists q, find_phone phone (snd (add_phone phone r)) = Some q
                    /\ phone_value q = phone)
    /\ (forall e, Phone_init phone = Raise e ->
          add_phone phone r = (Raise e, r)).
Proof.
  intros phone r. split.
  - intros p Hp. unfold add_phone. rewrite Hp. simpl.
    split; [reflexivity|]. split; [rewrite length_app; simpl; lia|].
    destruct (find_phone phone (set_phones (phones r ++ [p]) r)) as [q|] eqn:E.
    + exists q. split; [reflexivity|].
      unfold find_phone in E. apply find_some in E as [_ E].
      now apply str_eqb_eq.
    + exfalso. apply find_phone_none_iff in E. apply E.
      exists p. simpl. split; [apply in_or_app; right; now left|].
      eapply Phone_init_value; eassumption.
  - intros e He. unfold add_phone. rewrite He. reflexivity.
Qed.

Lemma add_phone_spec_witness :
  add_phone (lit "0123456789") (record_with_phone "Ann" "0123456789")
  = (Ok tt,
     set_phones [mkPhone (lit "0123456789"); mkPhone (lit "0123456789")]
       (record_with_phone "Ann" "0123456789")).
Proof.
  apply (proj1 (add_phone_spec (lit "0123456789")
                  (record_with_phone "Ann" "0123456789"))
           (mkPhone (lit "0123456789"))).
  vm_compute. reflexivity.
Defined.

Lemma filter_all_true {A} (f : A -> bool) (l : list A) :
  Forall (fun x => f x = true) l -> filter f l = l.
Proof.
  induction 1 as [|x l Hx _ IH]; simpl; [reflexivity|].
  rewrite Hx, IH. reflexivity.
Qed.

Lemma find_filter_other (ps : list Phone) phone other :
  other <> phone ->
  List.find (fun p => str_eqb (phone_value p) other)
    (filter (fun p => negb (str_eqb (phone_value p) phone)) ps)
  = List.find (fun p => str_eqb (phone_value p) other) ps.
Proof.
  intros Hne. induction ps as [|q ps IH]; simpl; [reflexivity|].
  destruct (str_eqb (phone_value q) phone) eqn:E; simpl.
  - apply str_eqb_eq in E.
    assert (str_eqb (phone_value q) other = false) as ->
        by (apply str_eqb_neq; congruence).
    exact IH.
  - destruct (str_eqb (phone_value q) other); [reflexivity | exact IH].
Qed.

(** X10. [remove_phone] never raises and removes every phone of the given
    value: afterwards [find_phone] finds none of that value and finds any
    other value as before. On a record without such a phone it changes
    nothing, so removing twice is removing once. *)
Theorem remove_phone_spec :
  forall (phone : pystr) (r : ContactRecord),
    let r' := snd (remove_phone phone r) in
    fst (remove_phone phone r) = Ok tt
    /\ find_phone phone r' = None
    /\ (forall other, other <> phone ->
          find_phone other r' = find_phone other r)
    /\ (~ has_phone phone r -> r' = r)
    /\ snd (remove_phone phone r') = r'.
Proof.
  intros phone r r'. subst r'. simpl.
  assert (Hnone : forall r0,
            ~ has_phone phone r0 ->
            set_phones
              (filter (fun p => negb (str_eqb (phone_value p) phone))
                 (phones r0)) r0 = r0).
  { intros r0 H. rewrite filter_all_true; [now destruct r0|].
    apply Forall_forall. intros p Hin. apply negb_true_iff, str_eqb_neq.
    intros Hp. apply H. exists p. auto. }
  assert (Hgone : ~ has_phone phone
                    (set_phones
                       (filter (fun p => negb (str_eqb (phone_value p) phone))
                          (phones r)) r)).
  { intros (p & Hin & Hp). simpl in Hin. apply filter_In in Hin as [_ Hf].
    apply negb_true_iff, str_eqb_neq in Hf. contradiction. }
  split; [reflexivity|].
  split; [now apply find_phone_none_iff|].
  split; [intros other Hne; now apply find_filter_other|].
  split; [apply Hnone|].
  now apply Hnone.
Qed.

(** X11. [edit_phone] succeeds exactly when the record has a phone of the
    old value. It then changes the first such phone to the new value, in
    place: the phones before and after it, later phones of the old value
    among them, stay, and so does the number of phones. Otherwise it
    raises [ValueError] and changes nothing. *)
Theorem edit_phone_spec :
  forall (old_phone new_phone : pystr) (r : ContactRecord),
    (has_phone old_phone r ->
     exists pre p post,
       phones r = pre ++ p :: post /\ phone_value p = old_phone
       /\ Forall (fun q => phone_value q <> old_phone) pre
       /\ edit_phone old_phone new_phone r
          = (Ok tt, set_phones (pre ++ mkPhone new_phone :: post) r)
       /\ List.length (phones (snd (edit_phone old_phone new_phone r)))
          = List.length (phones r)
       /\ has_phone new_phone (snd (edit_phone old_phone new_phone r)))
    /\ (~ has_phone old_phone r ->
        edit_phone old_phone new_phone r
        = (Raise (ValueError (lit "Old phone number not found.")), r)).
Proof.
  intros old_phone new_phone r. split.
  - intros Hhas.
    destruct (first_phone old_phone (phones r) Hhas)
      as (pre & p & post & Hr & Hp & Hpre).
    exists pre, p, post.
    assert (E : edit_phone old_phone new_phone r
                = (Ok tt, set_phones (pre ++ mkPhone new_phone :: post) r)).
    { unfold edit_phone.
      rewrite Hr, (edit_phone_loop_found _ _ _ _ _ Hpre Hp). reflexivity. }
    rewrite E. simpl. repeat split; auto.
    + rewrite Hr, !length_app. reflexivity.
    + exists (mkPhone new_phone). simpl. split; [|reflexivity].
      apply in_or_app. right. now left.
  - intros Hno. unfold edit_phone.
    rewrite edit_phone_loop_not_found; [reflexivity|].
    apply Forall_forall. intros q Hin Hq. apply Hno. exists q. auto.
Qed.

Lemma edit_phone_spec_witness :
  edit_phone (lit "0000000000") (lit "1111111111")
    (record_with_phone "Ann" "2222222222")
  = (Raise (ValueError (lit "Old phone number not found.")),
     record_with_phone "Ann" "2222222222").
Proof.
  apply (proj2 (edit_phone_spec (lit "0000000000") (lit "1111111111")
                  (record_with_phone "Ann" "2222222222"))).
  intros (p & [<-|[]] & Hp). vm_compute in Hp. discriminate Hp.
Defined.

(** ** Deleting records *)

Section DictDelete.
Context {V : Type}.
Implicit Types (d : list (pystr * V)) (k : pystr) (v : V).

Lemma dict_get_del_same d k : dict_get (dict_del d k) k = None.
Proof.
  unfold dict_del. induction d as [|[k0 v0] d IH]; simpl; [reflexivity|].
  destruct (str_eqb k0 k) eqn:E; simpl; [exact IH|].
  rewrite E. exact IH.
Qed.

Lemma dict_get_del_other d k k' :
  k' <> k -> dict_get (dict_del d k) k' = dict_get d k'.
Proof.
  intros Hne. unfold dict_del.
  induction d as [|[k0 v0] d IH]; simpl; [reflexivity|].
  destruct (str_eqb k0 k) eqn:E; simpl.
  - apply str_eqb_eq in E. subst k0.
    assert (str_eqb k k' = false) as -> by (apply str_eqb_neq; congruence).
    exact IH.
  - destruct (str_eqb k0 k'); [reflexivity | exact IH].
Qed.

Lemma dict_get_none_iff d k : dict_get d k = None <-> ~ In k (dict_keys d).
Proof.
  induction d as [|[k0 v0] d IH]; simpl; [tauto|].
  destruct (str_eqb k0 k) eqn:E.
  - apply str_eqb_eq in E. split; [discriminate | intros H; exfalso; auto].
  - apply str_eqb_neq in E. rewrite IH. tauto.
Qed.

Lemma dict_del_absent d k : ~ In k (dict_keys d) -> dict_del d k = d.
Proof.
  intros H. unfold dict_del. apply filter_all_true.
  apply Forall_forall. intros [k0 v0] Hin. simpl.
  apply negb_true_iff, str_eqb_neq. intros ->.
  apply H. eapply in_dict_keys; eassumption.
Qed.

Lemma dict_set_absent d k v :
  ~ In k (dict_keys d) -> dict_set d k v = d ++ [(k, v)].
Proof.
  induction d as [|[k0 v0] d IH]; simpl; intros H; [reflexivity|].
  destruct (str_eqb k0 k) eqn:E.
  - apply str_eqb_eq in E. exfalso. auto.
  - rewrite IH by tauto. reflexivity.
Qed.

Lemma dict_del_unique d k : unique_keys d -> unique_keys (dict_del d k).
Proof.
  unfold unique_keys, dict_del, dict_keys.
  induction d as [|[k0 v0] d IH]; simpl; intros H; [constructor|].
  inversion H as [|? ? Hnotin Hd]; subst.
  destruct (str_eqb k0 k); simpl; [now apply IH|].
  constructor; [|now apply IH].
  intros Hin. apply Hnotin. apply in_map_iff in Hin as (kv & <- & Hkv).
  apply filter_In in Hkv as [Hkv _]. now apply in_map.
Qed.
End DictDelete.

(** X12. [delete] never raises. Afterwards the name leads to no record and
    every other name leads to the record it led to before; the records
    left keep their order and the keys stay unique. On a book without the
    name it changes nothing. *)
Theorem delete_spec :
  forall (nm : pystr) (book : AddressBook),
    let book' := snd (delete nm book) in
    fst (delete nm book) = Ok tt
    /\ find nm book' = None
    /\ (forall other, other <> nm -> find other book' = find other book)
    /\ subseq book' book
    /\ (unique_keys book -> unique_keys book')
    /\ (find nm book = None -> book' = book).
Proof.
  intros nm book book'. subst book'. unfold delete, find.
  destruct (dict_get book nm) as [r|] eqn:E; simpl.
  - split; [reflexivity|]. split; [apply dict_get_del_same|].
    split; [intros other Hne; now apply dict_get_del_other|].
    split; [apply filter_subseq|].
    split; [apply dict_del_unique | discriminate].
  - split; [reflexivity|]. split; [exact E|].
    split; [reflexivity|].
    split.
    { clear E. induction book; constructor; assumption. }
    split; auto.
Qed.

(** X13. A record whose name is not in the book goes to the end of it, and
    deleting that name afterwards gives back the book as it was. *)
Theorem add_record_then_delete :
  forall (record : ContactRecord) (book : AddressBook),
    find (name_value (name record)) book = None ->
    snd (add_record record book) = book ++ [(name_value (name record), record)]
    /\ snd (delete (name_value (name record)) (snd (add_record record book)))
       = book.
Proof.
  intros record book Hnone. unfold find in Hnone.
  apply dict_get_none_iff in Hnone.
  unfold add_record, delete. simpl.
  rewrite dict_get_set_same. simpl.
  split; [now apply dict_set_absent|].
  rewrite dict_set_absent by assumption.
  unfold dict_del. rewrite filter_app. simpl. rewrite str_eqb_refl. simpl.
  rewrite app_nil_r. now apply dict_del_absent.
Qed.

Lemma add_record_then_delete_witness :
  snd (delete (lit "Bob")
         (snd (add_record (record_with_phone "Bob" "0000000000")
                 [(lit "Ann", record_with_phone "Ann" "1111111111")])))
  = [(lit "Ann", record_with_phone "Ann" "1111111111")].
Proof.
  apply (proj2 (add_record_then_delete
                  (record_with_phone "Bob" "0000000000")
                  [(lit "Ann", record_with_phone "Ann" "1111111111")]
                  eq_refl)).
Defined.

(** ** When the upcoming-birthday query returns *)

(** X14. [get_upcoming_birthdays] returns a list exactly when no record of
    the book has a birthday, and the list is then empty: with a birthday
    in the book it raises, whatever the date of today is. *)
Theorem get_upcoming_birthdays_returns_iff :
  forall (style : year_style) (today : date) (book : AddressBook)
         (l : list Upcoming),
    get_upcoming_birthdays style today book = Ok l
    <-> l = [] /\ Forall (fun r => birthday r = None) (dict_values book).
Proof.
  intros style today book l. split.
  - apply get_upcoming_birthdays_ok_inv.
  - intros [-> H]. unfold get_upcoming_birthdays.
    now apply upcoming_loop_no_birthdays.
Qed.

Lemma days_in_month_other_year y y' m :
  m <> 2%Z -> _days_in_month y m = _days_in_month y' m.
Proof.
  intros Hm. unfold _days_in_month.
  assert ((m =? 2)%Z = false) as -> by now apply Z.eqb_neq.
  reflexivity.
Qed.

Lemma days_in_february y :
  _days_in_month y 2 = if _is_leap y then 29%Z else 28%Z.
Proof. unfold _days_in_month. simpl. destruct (_is_leap y); reflexivity. Qed.

(** Moving a valid date to another year fails for 29 February when that
    year is no leap year, and only then. *)
Lemma check_date_fields_other_year y0 m d y :
  valid_date y0 m d -> (MINYEAR <= y <= MAXYEAR)%Z ->
  _check_date_fields y m d
  = if ((m =? 2) && (d =? 29))%Z && negb (_is_leap y)
    then Raise (ValueError (lit "day is out of range for month"))
    else Ok tt.
Proof.
  intros (Hy0 & Hm & Hd) Hy. unfold _check_date_fields.
  assert (((MINYEAR <=? y) && (y <=? MAXYEAR))%Z = true) as ->
      by (apply andb_true_iff; split; apply Z.leb_le; lia).
  assert (((1 <=? m) && (m <=? 12))%Z = true) as ->
      by (apply andb_true_iff; split; apply Z.leb_le; lia).
  assert ((1 <=? d)%Z = true) as -> by (apply Z.leb_le; lia).
  simpl.
  destruct (Z.eqb_spec m 2) as [->|Hm2]; simpl.
  - rewrite days_in_february in *.
    destruct (Z.eqb_spec d 29) as [->|Hd29]; simpl.
    + destruct (_is_leap y); reflexivity.
    + assert ((d <=? (if _is_leap y then 29 else 28))%Z = true) as ->;
        [|reflexivity].
      apply Z.leb_le. destruct (_is_leap y), (_is_leap y0); lia.
  - rewrite (days_in_month_other_year y y0 m Hm2).
    assert ((d <=? _days_in_month y0 m)%Z = true) as ->
        by (apply Z.leb_le; lia).
    reflexivity.
Qed.

Lemma upcoming_loop_skip style today pre rest acc :
  Forall (fun r => birthday r = None) pre ->
  upcoming_loop style today (pre ++ rest) acc
  = upcoming_loop style today rest acc.
Proof.
  induction 1 as [|r pre Hr _ IH]; simpl; [reflexivity|].
  rewrite Hr. exact IH.
Qed.

(** X15. The first record with a birthday decides how the query fails. If
    the birthday is 29 February and today's year is no leap year,
    [replace] raises [ValueError]; in every other case the comparison of
    the [datetime] with today's [date] raises [TypeError]. *)
Theorem get_upcoming_birthdays_raises :
  forall (style : year_style) (today : date) (book : AddressBook)
         (pre post : list ContactRecord) (r : ContactRecord) (b : Birthday),
    dict_values book = pre ++ r :: post ->
    Forall (fun r => birthday r = None) pre ->
    birthday r = Some b ->
    valid_date (year (birthday_value b)) (month (birthday_value b))
               (day (birthday_value b)) ->
    (MINYEAR <= d_year today <= MAXYEAR)%Z ->
    get_upcoming_birthdays style today book
    = Raise
        (if ((month (birthday_value b) =? 2)
             && (day (birthday_value b) =? 29))%Z
            && negb (_is_leap (d_year today))
         then ValueError (lit "day is out of range for month")
         else TypeError
                (lit "can't compare datetime.datetime to datetime.date")).
Proof.
  intros style today book pre post r b Hv Hpre Hb Hvalid Hy.
  unfold get_upcoming_birthdays.
  rewrite Hv, (upcoming_loop_skip _ _ _ _ _ Hpre). simpl. rewrite Hb.
  unfold replace_year.
  rewrite (check_date_fields_other_year _ _ _ _ Hvalid Hy).
  destruct (((month (birthday_value b) =? 2)
             && (day (birthday_value b) =? 29))%Z
            && negb (_is_leap (d_year today))); reflexivity.
Qed.

Lemma get_upcoming_birthdays_raises_witness :
  get_upcoming_birthdays PaddedYear (mkdate 2023 6 10)
    (book_with_birthday "Leap" "29.02.2000")
  = Raise (ValueError (lit "day is out of range for month")).
Proof.
  apply (get_upcoming_birthdays_raises PaddedYear (mkdate 2023 6 10)
           (book_with_birthday "Leap" "29.02.2000") [] []
           (mkRecord (mkName (lit "Leap")) []
              (Some (mkBirthday (mkdatetime 2000 2 29 0 0 0 0))))
           (mkBirthday (mkdatetime 2000 2 29 0 0 0 0))).
  - vm_compute. reflexivity.
  - constructor.
  - reflexivity.
  - vm_compute. intuition discriminate.
  - vm_compute. intuition discriminate.
Defined.

(** ** What the commands answer *)

Lemma dict_set_get_same {V} (d : list (pystr * V)) k v :
  dict_get d k = Some v -> dict_set d k v = d.
Proof.
  induction d as [|[k0 v0] d IH]; simpl; [discriminate|].
  destruct (str_eqb k0 k).
  - intros H. injection H as ->. reflexivity.
  - intros H. now rewrite IH.
Qed.

Lemma input_error_answers func args book :
  (forall v book', func args book = (Ok v, book') -> exists s, v = PyStr s) ->
  exists s book', input_error func args book = (Ok (PyStr s), book').
Proof.
  intros H. unfold input_error.
  destruct (func args book) as [[v|e] book'] eqn:E; [|eauto].
  destruct (H v book' eq_refl) as [s ->]. eauto.
Qed.

Lemma add_birthday_body_answers args book v book' :
  add_birthday_body args book = (Ok v, book') -> exists s, v = PyStr s.
Proof.
  unfold add_birthday_body, bind, ret, raise, get.
  destruct args as [|nm [|bday [|? ?]]]; simpl; try discriminate.
  destruct (find nm book) as [record|]; simpl.
  - destruct (on_record nm record (add_birthday bday) book) as [[u|e] b1];
      intros H; [injection H as <- _; eauto | discriminate].
  - intros H. injection H as <- _. eauto.
Qed.

Lemma show_birthday_body_answers style args book v book' :
  show_birthday_body style args book = (Ok v, book') -> exists s, v = PyStr s.
Proof.
  unfold show_birthday_body, bind, ret, raise, get.
  destruct args as [|nm [|? ?]]; simpl; try discriminate.
  destruct (find nm book) as [record|]; simpl;
    [destruct (birthday record)|]; intros H; injection H as <- _; eauto.
Qed.

Lemma birthdays_body_answers style today args book v book' :
  birthdays_body style today args book = (Ok v, book') -> exists s, v = PyStr s.
Proof.
  unfold birthdays_body, bind, ret, get, lift. simpl.
  destruct (get_upcoming_birthdays style today book) as [[|? ?]|e];
    intros H; try discriminate; injection H as <- _; eauto.
Qed.

(** X16. The three decorated commands, [add-birthday], [show-birthday] and
    [birthdays], answer with a string for every argument list and every
    book: no exception leaves them. *)
Theorem decorated_commands_answer :
  forall (style : year_style) (today : date) (args : list pystr)
         (book : AddressBook),
    (exists s book',
       handle_command style today (lit "add-birthday") args book
       = (Ok (PyStr s), book'))
    /\ (exists s book',
          handle_command style today (lit "show-birthday") args book
          = (Ok (PyStr s), book'))
    /\ (exists s book',
          handle_command style today (lit "birthdays") args book
          = (Ok (PyStr s), book')).
Proof.
  intros style today args book. repeat split.
  - change (handle_command style today (lit "add-birthday") args book)
      with (input_error add_birthday_body args book).
    apply input_error_answers. apply add_birthday_body_answers.
  - change (handle_command style today (lit "show-birthday") args book)
      with (input_error (show_birthday_body style) args book).
    apply input_error_answers. apply show_birthday_body_answers.
  - change (handle_command style today (lit "birthdays") args book)
      with (input_error (birthdays_body style today) args book).
    apply input_error_answers. apply birthdays_body_answers.
Qed.

(** X17. The [birthdays] command never lists a birthday: its answer is
    "No upcoming birthdays" when no record has one, and otherwise the
    message of the exception the query raised; the book stays as it is. *)
Theorem birthdays_command_answer :
  forall (style : year_style) (today : date) (args : list pystr)
         (book : AddressBook),
    handle_command style today (lit "birthdays") args book
    = (Ok (PyStr
             (match get_upcoming_birthdays style today book with
              | Ok _ => lit "No upcoming birthdays"
              | Raise e => exn_str e
              end)), book).
Proof.
  intros style today args book.
  change (handle_command style today (lit "birthdays") args book)
    with (input_error (birthdays_body style today) args book).
  unfold input_error, birthdays_body, bind, ret, get, lift. simpl.
  destruct (get_upcoming_birthdays style today book) as [l|e] eqn:E;
    [|reflexivity].
  apply get_upcoming_birthdays_ok_inv in E as [-> _]. reflexivity.
Qed.

(** X18. Every command but [add], [change] and [add-birthday] leaves the
    book as it is, whatever its arguments and whether it answers or
    raises; so does a word that is no command. *)
Theorem other_commands_keep_book :
  forall (style : year_style) (today : date) (command : pystr)
         (args : list pystr) (book : AddressBook),
    command <> lit "add" -> command <> lit "change" ->
    command <> lit "add-birthday" ->
    snd (handle_command style today command args book) = book.
Proof.
  intros style today command args book H1 H2 H3.
  apply str_eqb_neq in H1, H2, H3.
  assert (forall a, str_eqb a command = str_eqb command a) as Hsym.
  { intros a. destruct (str_eqb command a) eqn:E.
    - apply str_eqb_eq in E. subst. apply str_eqb_refl.
    - apply str_eqb_neq. apply str_eqb_neq in E. congruence. }
  unfold handle_command, commands, dict_get.
  rewrite !Hsym, H1, H2, H3.
  repeat match goal with
         | |- context [if str_eqb command ?a then _ else _] =>
             destruct (str_eqb command a)
         end;
    try reflexivity.
  - apply cmd_phone_state.
  - apply show_birthday_state.
  - apply birthdays_state.
Qed.

Lemma other_commands_keep_book_witness :
  snd (handle_command PlainYear june_10_2024 (lit "phone") []
         (book_with_birthday "Alice" "12.06.1990"))
  = book_with_birthday "Alice" "12.06.1990".
Proof.
  apply (other_commands_keep_book PlainYear june_10_2024 (lit "phone") []
           (book_with_birthday "Alice" "12.06.1990"));
    discriminate.
Defined.

(** X19. A word that is none of the ten command names is answered with
    "Unknown command". *)
Theorem unknown_command :
  forall (style : year_style) (today : date) (command : pystr)
         (args : list pystr) (book : AddressBook),
    ~ In command command_names ->
    handle_command style today command args book
    = (Ok (PyStr (lit "Unknown command")), book).
Proof.
  intros style today command args book Hnot.
  unfold handle_command, commands, dict_get.
  repeat match goal with
         | |- context [if str_eqb ?a command then _ else _] =>
             let E := fresh "E" in
             destruct (str_eqb a command) eqn:E;
               [apply str_eqb_eq in E; exfalso; apply Hnot; rewrite <- E;
                unfold command_names; simpl; tauto|]
         end.
  reflexivity.
Qed.

Lemma unknown_command_witness :
  handle_command PlainYear june_10_2024 (lit "Add") [lit "Ann"] []
  = (Ok (PyStr (lit "Unknown command")), []).
Proof.
  apply (unknown_command PlainYear june_10_2024 (lit "Add") [lit "Ann"] []).
  unfold command_names. simpl.
  intros H. repeat (destruct H as [H|H]; [discriminate H|]). exact H.
Defined.

Lemma Birthday_init_raises s e :
  Birthday_init s = Raise e ->
  e = ValueError (lit "Invalid date format. Use DD.MM.YYYY").
Proof.
  unfold Birthday_init. destruct (strptime_dmY s) as [dt|e'] eqn:E;
    [discriminate|].
  destruct (strptime_raises s e' E) as [msg ->].
  intros H. now injection H as <-.
Qed.

(** X20. The four answers of [add-birthday]. With a name and a date the
    class accepts, the birthday of the record under that name is set
    (replacing an earlier one) and the answer names both; a date the class
    refuses is answered with the class's message, a name not in the book
    with "not found", any other number of arguments with the usage line,
    and in these three cases the book stays as it is. *)
Theorem add_birthday_command_spec :
  forall (style : year_style) (today : date) (book : AddressBook),
    (forall nm bday record b,
       find nm book = Some record -> Birthday_init bday = Ok b ->
       handle_command style today (lit "add-birthday") [nm; bday] book
       = (Ok (PyStr (lit "Added birthday " ++ bday ++ lit " for " ++ nm)),
          dict_set book nm (set_birthday (Some b) record)))
    /\ (forall nm bday record e,
          find nm book = Some record -> Birthday_init bday = Raise e ->
          handle_command style today (lit "add-birthday") [nm; bday] book
          = (Ok (PyStr (lit "Invalid date format. Use DD.MM.YYYY")), book))
    /\ (forall nm bday,
          find nm book = None ->
          handle_command style today (lit "add-birthday") [nm; bday] book
          = (Ok (PyStr (lit "Contact " ++ nm ++ lit " not found")), book))
    /\ (forall args,
          List.length args <> 2%nat ->
          handle_command style today (lit "add-birthday") args book
          = (Ok (PyStr (lit "Usage: add-birthday [name] [birthday]")), book)).
Proof.
  intros style today book.
  assert (Hc : forall args,
            handle_command style today (lit "add-birthday") args book
            = input_error add_birthday_body args book) by reflexivity.
  repeat split.
  - intros nm bday record b Hf Hb. rewrite Hc.
    unfold input_error, add_birthday_body, bind, ret, get, on_record,
      add_birthday.
    rewrite Hf, Hb. reflexivity.
  - intros nm bday record e Hf Hb. rewrite Hc.
    unfold input_error, add_birthday_body, bind, ret, get, on_record,
      add_birthday.
    rewrite Hf, Hb. unfold find in Hf. rewrite (dict_set_get_same _ _ _ Hf).
    now rewrite (Birthday_init_raises _ _ Hb).
  - intros nm bday Hf. rewrite Hc.
    unfold input_error, add_birthday_body, bind, ret, get.
    rewrite Hf. reflexivity.
  - intros args Hl. rewrite Hc.
    destruct args as [|a [|b [|c args]]]; try reflexivity.
    now contradiction Hl.
Qed.

(** X21. After [add-birthday] has set a birthday, [show-birthday] for the
    same name answers with that birthday, rendered by [strftime]. *)
Theorem add_then_show_birthday :
  forall (style : year_style) (today : date) (book : AddressBook)
         (nm bday : pystr) (record : ContactRecord) (b : Birthday),
    find nm book = Some record ->
    Birthday_init bday = Ok b ->
    let book' :=
      snd (handle_command style today (lit "add-birthday") [nm; bday] book) in
    handle_command style today (lit "show-birthday") [nm] book'
    = (Ok (PyStr (nm ++ lit "'s birthday is " ++ Birthday_str style b)), book').
Proof.
  intros style today book nm bday record b Hf Hb book'.
  assert (E : book' = dict_set book nm (set_birthday (Some b) record)).
  { subst book'.
    change (handle_command style today (lit "add-birthday") [nm; bday] book)
      with (input_error add_birthday_body [nm; bday] book).
    unfold input_error, add_birthday_body, bind, ret, get, on_record,
      add_birthday.
    rewrite Hf, Hb. reflexivity. }
  rewrite E.
  change (handle_command style today (lit "show-birthday") [nm]
            (dict_set book nm (set_birthday (Some b) record)))
    with (input_error (show_birthday_body style) [nm]
            (dict_set book nm (set_birthday (Some b) record))).
  unfold input_error, show_birthday_body, bind, ret, get, find.
  rewrite dict_get_set_same. reflexivity.
Qed.

Lemma add_then_show_birthday_witness :
  handle_command PaddedYear june_10_2024 (lit "show-birthday") [lit "Alice"]
    (snd (handle_command PaddedYear june_10_2024 (lit "add-birthday")
            [lit "Alice"; lit "1.1.2000"]
            [(lit "Alice", mkRecord (mkName (lit "Alice")) [] None)]))
  = (Ok (PyStr (lit "Alice's birthday is 01.01.2000")),
     snd (handle_command PaddedYear june_10_2024 (lit "add-birthday")
            [lit "Alice"; lit "1.1.2000"]
            [(lit "Alice", mkRecord (mkName (lit "Alice")) [] None)])).
Proof.
  apply (add_then_show_birthday PaddedYear june_10_2024
           [(lit "Alice", mkRecord (mkName (lit "Alice")) [] None)]
           (lit "Alice") (lit "1.1.2000")
           (mkRecord (mkName (lit "Alice")) [] None)
           (mkBirthday (mkdatetime 2000 1 1 0 0 0 0)));
    vm_compute; reflexivity.
Defined.

Lemma Name_init_word nm : is_word nm -> Name_init nm = Ok (mkName nm).
Proof.
  intros [Hne Hns]. unfold Name_init.
  destruct (strip nm) eqn:E; [|reflexivity].
  apply strip_nil_iff in E. destruct nm as [|c nm]; [contradiction|].
  inversion Hns as [|? ? Hc _]; subst. simpl in E. rewrite Hc in E.
  discriminate.
Qed.

Lemma parse_input_words user_input command args :
  parse_input user_input = Ok (command, args) ->
  is_word command /\ Forall is_word args.
Proof.
  unfold parse_input, split.
  pose proof (split_ws_words [] user_input (Forall_nil _)) as Hw.
  destruct (split_ws [] user_input) as [|c a]; simpl; [discriminate|].
  intros H. injection H as <- <-. now inversion Hw.
Qed.

(** X22. An [add] line typed by the user never fails once it has a name:
    the words [parse_input] produces are never blank, so [Name] accepts
    the name. The command returns [None] and puts a new record, without
    phones or birthday, under the name, in place of the record that may
    have been there. *)
Theorem add_from_command_line :
  forall (style : year_style) (today : date) (user_input : pystr)
         (nm : pystr) (rest : list pystr) (book : AddressBook),
    parse_input user_input = Ok (lit "add", nm :: rest) ->
    handle_command style today (lit "add") (nm :: rest) book
    = (Ok PyNone, dict_set book nm (mkRecord (mkName nm) [] None))
    /\ find nm (snd (handle_command style today (lit "add") (nm :: rest) book))
       = Some (mkRecord (mkName nm) [] None).
Proof.
  intros style today user_input nm rest book Hp.
  apply parse_input_words in Hp as [_ Hargs].
  inversion Hargs as [|? ? Hnm _]; subst.
  change (handle_command style today (lit "add") (nm :: rest) book)
    with (cmd_add (nm :: rest) book).
  unfold cmd_add, bind, lift, ret, add_record, index, Record_init. simpl.
  rewrite (Name_init_word nm Hnm). simpl.
  split; [reflexivity | apply dict_get_set_same].
Qed.

Lemma add_from_command_line_witness :
  handle_command PaddedYear june_10_2024 (lit "add") [lit "Ann"]
    [(lit "Ann", record_with_phone "Ann" "0000000000")]
  = (Ok PyNone, [(lit "Ann", mkRecord (mkName (lit "Ann")) [] None)]).
Proof.
  apply (add_from_command_line PaddedYear june_10_2024 (lit " add  Ann")
           (lit "Ann") [] [(lit "Ann", record_with_phone "Ann" "0000000000")]).
  vm_compute. reflexivity.
Defined.

(** X23. [change] on a contact of the book that has the old phone returns
    [None]; afterwards the name leads to the record with the first phone
    of the old value changed to the new one, its name and birthday as
    before, and every other name leads to the record it led to. *)
Theorem change_command_spec :
  forall (style : year_style) (today : date) (book : AddressBook)
         (nm old_phone new_phone : pystr) (rest : list pystr)
         (record : ContactRecord),
    find nm book = Some record ->
    has_phone old_phone record ->
    let out :=
      handle_command style today (lit "change")
        (nm :: old_phone :: new_phone :: rest) book in
    fst out = Ok PyNone
    /\ (exists pre p post,
          phones record = pre ++ p :: post /\ phone_value p = old_phone
          /\ Forall (fun q => phone_value q <> old_phone) pre
          /\ find nm (snd out)
             = Some (set_phones (pre ++ mkPhone new_phone :: post) record))
    /\ (forall other, other <> nm -> find other (snd out) = find other book).
Proof.
  intros style today book nm old_phone new_phone rest record Hf Hhas out.
  destruct (first_phone old_phone (phones record) Hhas)
    as (pre & p & post & Hr & Hp & Hpre).
  assert (E : out = (Ok PyNone,
                     dict_set book nm
                       (set_phones (pre ++ mkPhone new_phone :: post) record))).
  { subst out.
    change (handle_command style today (lit "change")
              (nm :: old_phone :: new_phone :: rest) book)
      with (cmd_change (nm :: old_phone :: new_phone :: rest) book).
    unfold cmd_change, bind, lift, ret, get, index, on_record, edit_phone.
    simpl. rewrite Hf. simpl.
    rewrite Hr, (edit_phone_loop_found _ _ _ _ _ Hpre Hp). reflexivity. }
  rewrite E. simpl. split; [reflexivity|]. split.
  - exists pre, p, post. repeat split; auto. apply dict_get_set_same.
  - intros other Hne. now apply dict_get_set_other.
Qed.

Lemma change_command_spec_witness :
  fst (handle_command PaddedYear june_10_2024 (lit "change")
         [lit "Ann"; lit "0000000000"; lit "1111111111"]
         [(lit "Ann", record_with_phone "Ann" "0000000000")])
  = Ok PyNone.
Proof.
  refine (proj1 (change_command_spec PaddedYear june_10_2024
                   [(lit "Ann", record_with_phone "Ann" "0000000000")]
                   (lit "Ann") (lit "0000000000") (lit "1111111111") []
                   (record_with_phone "Ann" "0000000000") eq_refl _)).
  exists (mkPhone (lit "0000000000")). split; [now left | reflexivity].
Defined.

(** ** Sessions of [main] *)

Lemma main_loop_cons style today user_input rest book stdout :
  main_loop style ((today, user_input) :: rest) book stdout
  = match parse_input user_input with
    | Raise e => (stdout ++ [lit "Enter a command: "], Crashed e book)
    | Ok (command, args) =>
        if str_eqb command (lit "close") || str_eqb command (lit "exit")
        then (print (lit "Goodbye!") (stdout ++ [lit "Enter a command: "]),
              Saved book)
        else
          match handle_command style today command args book with
          | (Ok response, book') =>
              main_loop style rest book'
                (print (pyval_str response)
                   (stdout ++ [lit "Enter a command: "]))
          | (Raise e, book') =>
              (stdout ++ [lit "Enter a command: "], Crashed e book')
          end
    end.
Proof. reflexivity. Qed.

(** A session that came to the end of its input goes on with more input
    from the book and the output it had reached. *)
Lemma main_loop_app style pre rest book stdout out1 book1 :
  main_loop style pre book stdout = (out1, EndOfInput book1) ->
  main_loop style (pre ++ rest) book stdout
  = main_loop style rest book1 (removelast out1).
Proof.
  revert book stdout. induction pre as [|[today line] pre IH];
    intros book stdout H.
  - simpl in H. injection H as <- <-. rewrite removelast_last. reflexivity.
  - rewrite <- app_comm_cons, main_loop_cons. rewrite main_loop_cons in H.
    destruct (parse_input line) as [[command args]|e]; [|discriminate].
    destruct (str_eqb command (lit "close") || str_eqb command (lit "exit"));
      [discriminate|].
    destruct (handle_command style today command args book)
      as [[response|e] book']; [|discriminate].
    now apply IH.
Qed.

(** X24. A session that has ended, by a save or by an exception, reads no
    further: more input after it changes neither what was written nor how
    it ended. *)
Theorem main_ended_reads_no_more :
  forall (style : year_style) (file : option AddressBook)
         (pre rest : list (date * pystr)) (out1 : list pystr)
         (e : session_end),
    main style file pre = (out1, e) ->
    (forall book, e <> EndOfInput book) ->
    main style file (pre ++ rest) = (out1, e).
Proof.
  intros style file pre rest out1 e. unfold main.
  generalize (load_data file) as book.
  generalize (print (lit "Welcome to the assistant bot!") []) as stdout.
  induction pre as [|[today line] pre IH]; intros stdout book H Hne.
  - simpl in H. injection H as <- <-. now contradiction (Hne book).
  - rewrite <- app_comm_cons, main_loop_cons. rewrite main_loop_cons in H.
    destruct (parse_input line) as [[command args]|e']; [|exact H].
    destruct (str_eqb command (lit "close") || str_eqb command (lit "exit"));
      [exact H|].
    destruct (handle_command style today command args book)
      as [[response|e'] book']; [|exact H].
    now apply IH.
Qed.

Lemma main_ended_reads_no_more_witness :
  main PaddedYear None
    ([(june_10_2024, lit "add Ann"); (june_10_2024, lit "change Bob 1 2")]
     ++ [(june_10_2024, lit "exit")])
  = main PaddedYear None
      [(june_10_2024, lit "add Ann"); (june_10_2024, lit "change Bob 1 2")].
Proof.
  apply (main_ended_reads_no_more PaddedYear None
           [(june_10_2024, lit "add Ann"); (june_10_2024, lit "change Bob 1 2")]
           [(june_10_2024, lit "exit")]
           (fst (main PaddedYear None
                   [(june_10_2024, lit "add Ann");
                    (june_10_2024, lit "change Bob 1 2")]))
           (Crashed
              (AttributeError
                 (lit "'NoneType' object has no attribute 'edit_phone'"))
              [(lit "Ann", mkRecord (mkName (lit "Ann")) [] None)])).
  - vm_compute. reflexivity.
  - discriminate.
Defined.

(** X25. When the lines so far were all answered, a line whose first word
    is [close] or [exit] ends the session: "Goodbye!" is written, the book
    as it is at that moment is saved to the file, and what follows the
    line, on it or after it, is ignored. *)
Theorem main_exit_saves :
  forall (style : year_style) (file : option AddressBook)
         (pre rest : list (date * pystr)) (today : date) (line : pystr)
         (out1 : list pystr) (book1 : AddressBook)
         (command : pystr) (args : list pystr),
    main style file pre = (out1, EndOfInput book1) ->
    parse_input line = Ok (command, args) ->
    command = lit "close" \/ command = lit "exit" ->
    main style file (pre ++ (today, line) :: rest)
    = (print (lit "Goodbye!") out1, Saved book1)
    /\ file_after file
         (snd (main style file (pre ++ (today, line) :: rest)))
       = Some book1.
Proof.
  intros style file pre rest today line out1 book1 command args H Hp Hc.
  unfold main in *.
  assert (Hout : exists out0, out1 = out0 ++ [lit "Enter a command: "]).
  { clear Hp Hc. revert H.
    generalize (load_data file) as book.
    generalize (print (lit "Welcome to the assistant bot!") []) as stdout.
    induction pre as [|[t l] pre IH]; intros stdout book H.
    - simpl in H. injection H as <- _. eauto.
    - rewrite main_loop_cons in H.
      destruct (parse_input l) as [[c a]|e']; [|discriminate].
      destruct (str_eqb c (lit "close") || str_eqb c (lit "exit"));
        [discriminate|].
      destruct (handle_command style t c a book) as [[response|e'] book'];
        [|discriminate].
      eapply IH; eassumption. }
  destruct Hout as [out0 ->].
  rewrite (main_loop_app _ _ _ _ _ _ _ H), removelast_last, main_loop_cons, Hp.
  assert (str_eqb command (lit "close") || str_eqb command (lit "exit") = true)
    as ->.
  { destruct Hc as [->| ->]; reflexivity. }
  split; reflexivity.
Qed.

Lemma main_exit_saves_witness :
  main PaddedYear None
    ([(june_10_2024, lit "add Ann")]
     ++ (june_10_2024, lit "exit now") :: [(june_10_2024, lit "add Bob")])
  = (print (lit "Goodbye!")
       (fst (main PaddedYear None [(june_10_2024, lit "add Ann")])),
     Saved [(lit "Ann", mkRecord (mkName (lit "Ann")) [] None)]).
Proof.
  apply (main_exit_saves PaddedYear None [(june_10_2024, lit "add Ann")]
           [(june_10_2024, lit "add Bob")] june_10_2024 (lit "exit now")
           (fst (main PaddedYear None [(june_10_2024, lit "add Ann")]))
           [(lit "Ann", mkRecord (mkName (lit "Ann")) [] None)]
           (lit "exit") [lit "now"]).
  - vm_compute. reflexivity.
  - vm_compute. reflexivity.
  - right. reflexivity.
Defined.

(** X26. When the lines so far were all answered, a line without a word
    (an empty line, or white space only) ends the session with
    [IndexError]: nothing is written for it and the file is left as it
    was, so the changes of the session are lost. *)
Theorem main_blank_line_crashes :
  forall (style : year_style) (file : option AddressBook)
         (pre rest : list (date * pystr)) (today : date) (line : pystr)
         (out1 : list pystr) (book1 : AddressBook),
    main style file pre = (out1, EndOfInput book1) ->
    forallb isspace_char line = true ->
    main style file (pre ++ (today, line) :: rest)
    = (out1, Crashed (IndexError (lit "list index out of range")) book1)
    /\ file_after file
         (snd (main style file (pre ++ (today, line) :: rest)))
       = file.
Proof.
  intros style file pre rest today line out1 book1 H Hblank.
  unfold main in *.
  assert (Hout : exists out0, out1 = out0 ++ [lit "Enter a command: "]).
  { revert H.
    generalize (load_data file) as book.
    generalize (print (lit "Welcome to the assistant bot!") []) as stdout.
    induction pre as [|[t l] pre IH]; intros stdout book H.
    - simpl in H. injection H as <- _. eauto.
    - rewrite main_loop_cons in H.
      destruct (parse_input l) as [[c a]|e']; [|discriminate].
      destruct (str_eqb c (lit "close") || str_eqb c (lit "exit"));
        [discriminate|].
      destruct (handle_command style t c a book) as [[response|e'] book'];
        [|discriminate].
      eapply IH; eassumption. }
  destruct Hout as [out0 ->].
  rewrite (main_loop_app _ _ _ _ _ _ _ H), removelast_last, main_loop_cons.
  unfold parse_input, split. rewrite (split_ws_blank _ Hblank).
  split; reflexivity.
Qed.

Lemma main_blank_line_crashes_witness :
  main PaddedYear None
    ([(june_10_2024, lit "add Ann")]
     ++ (june_10_2024, lit "  ") :: [(june_10_2024, lit "exit")])
  = (fst (main PaddedYear None [(june_10_2024, lit "add Ann")]),
     Crashed (IndexError (lit "list index out of range"))
       [(lit "Ann", mkRecord (mkName (lit "Ann")) [] None)]).
Proof.
  apply (main_blank_line_crashes PaddedYear None
           [(june_10_2024, lit "add Ann")] [(june_10_2024, lit "exit")]
           june_10_2024 (lit "  ")
           (fst (main PaddedYear None [(june_10_2024, lit "add Ann")]))
           [(lit "Ann", mkRecord (mkName (lit "Ann")) [] None)]).
  - vm_compute. reflexivity.
  - vm_compute. reflexivity.
Defined.

(** X27. If every record of the book loaded from the file is stored under
    its own name, so is every record of the book the session ends with,
    however it ends; in particular of the book that is saved. *)
Theorem main_keeps_keys_are_names :
  forall (style : year_style) (file : option AddressBook)
         (inputs : list (date * pystr)),
    keys_are_names (load_data file) ->
    keys_are_names (final_book (snd (main style file inputs))).
Proof.
  intros style file inputs. unfold main.
  generalize (load_data file) as book.
  generalize (print (lit "Welcome to the assistant bot!") []) as stdout.
  induction inputs as [|[today line] inputs IH]; intros stdout book Hinv.
  - exact Hinv.
  - rewrite main_loop_cons.
    destruct (parse_input line) as [[command args]|e]; [|exact Hinv].
    destruct (str_eqb command (lit "close") || str_eqb command (lit "exit"));
      [exact Hinv|].
    pose proof (handle_command_keys_are_names style today command args book
                  Hinv) as Hstep.
    destruct (handle_command style today command args book)
      as [[response|e] book']; simpl in Hstep; [|exact Hstep].
    now apply IH.
Qed.

Lemma main_keeps_keys_are_names_witness :
  keys_are_names
    (final_book
       (snd (main PaddedYear None
               [(june_10_2024, lit "add Ann"); (june_10_2024, lit "exit")]))).
Proof.
  apply (main_keeps_keys_are_names PaddedYear None
           [(june_10_2024, lit "add Ann"); (june_10_2024, lit "exit")]).
  constructor.
Defined.

Lemma main_loop_prompt style pre book stdout out1 book1 :
  main_loop style pre book stdout = (out1, EndOfInput book1) ->
  exists out0, out1 = out0 ++ [lit "Enter a command: "].
Proof.
  revert book stdout. induction pre as [|[t l] pre IH]; intros book stdout H.
  - simpl in H. injection H as <- _. eauto.
  - rewrite main_loop_cons in H.
    destruct (parse_input l) as [[c a]|e']; [|discriminate].
    destruct (str_eqb c (lit "close") || str_eqb c (lit "exit"));
      [discriminate|].
    destruct (handle_command style t c a book) as [[response|e'] book'];
      [|discriminate].
    eapply IH; eassumption.
Qed.

(** X28. When the lines so far were all answered, a command whose handler
    raises ends the session with that exception: no answer is written and
    the file is left as it was. *)
Theorem main_handler_exception_crashes :
  forall (style : year_style) (file : option AddressBook)
         (pre rest : list (date * pystr)) (today : date) (line : pystr)
         (out1 : list pystr) (book1 book2 : AddressBook)
         (command : pystr) (args : list pystr) (e : exn),
    main style file pre = (out1, EndOfInput book1) ->
    parse_input line = Ok (command, args) ->
    command <> lit "close" -> command <> lit "exit" ->
    handle_command style today command args book1 = (Raise e, book2) ->
    main style file (pre ++ (today, line) :: rest) = (out1, Crashed e book2)
    /\ file_after file
         (snd (main style file (pre ++ (today, line) :: rest)))
       = file.
Proof.
  intros style file pre rest today line out1 book1 book2 command args e
    H Hp Hc1 Hc2 Hh.
  unfold main in *.
  destruct (main_loop_prompt _ _ _ _ _ _ H) as [out0 ->].
  rewrite (main_loop_app _ _ _ _ _ _ _ H), removelast_last, main_loop_cons,
    Hp.
  apply str_eqb_neq in Hc1, Hc2. rewrite Hc1, Hc2. simpl. rewrite Hh.
  split; reflexivity.
Qed.

Lemma main_handler_exception_crashes_witness :
  main PaddedYear None
    ([(june_10_2024, lit "add Ann")]
     ++ (june_10_2024, lit "change Bob 1 2") :: [(june_10_2024, lit "exit")])
  = (fst (main PaddedYear None [(june_10_2024, lit "add Ann")]),
     Crashed
       (AttributeError (lit "'NoneType' object has no attribute 'edit_phone'"))
       [(lit "Ann", mkRecord (mkName (lit "Ann")) [] None)]).
Proof.
  apply (main_handler_exception_crashes PaddedYear None
           [(june_10_2024, lit "add Ann")] [(june_10_2024, lit "exit")]
           june_10_2024 (lit "change Bob 1 2")
           (fst (main PaddedYear None [(june_10_2024, lit "add Ann")]))
           [(lit "Ann", mkRecord (mkName (lit "Ann")) [] None)]
           [(lit "Ann", mkRecord (mkName (lit "Ann")) [] None)]
           (lit "change") [lit "Bob"; lit "1"; lit "2"]).
  - vm_compute. reflexivity.
  - vm_compute. reflexivity.
  - discriminate.
  - discriminate.
  - vm_compute. reflexivity.
Defined.

Lemma join_snoc sep (l : list pystr) x :
  l <> [] -> join sep (l ++ [x]) = join sep l ++ sep ++ x.
Proof.
  induction l as [|a l IH]; [contradiction|]. intros _.
  destruct l as [|b l]; [reflexivity|].
  change (join sep ((a :: b :: l) ++ [x]))
    with (a ++ sep ++ join sep ((b :: l) ++ [x])).
  rewrite IH by discriminate.
  change (join sep (a :: b :: l)) with (a ++ sep ++ join sep (b :: l)).
  now rewrite <- !app_assoc.
Qed.

(** X29. The text of the book lists the records in the order their names
    were first added: after [add_record] of a name that is not in a book
    with records, the text is the old text, a line feed and the text of
    the new record. *)
Theorem AddressBook_str_after_add_record :
  forall (style : year_style) (record : ContactRecord) (book : AddressBook),
    book <> [] ->
    find (name_value (name record)) book = None ->
    AddressBook_str style (snd (add_record record book))
    = AddressBook_str style book ++ [10%N] ++ Record_str style record.
Proof.
  intros style record book Hne Hnone. unfold find in Hnone.
  apply dict_get_none_iff in Hnone.
  unfold add_record, AddressBook_str, dict_values. simpl.
  rewrite dict_set_absent by assumption.
  rewrite !map_app. simpl. apply join_snoc.
  now destruct book.
Qed.

Lemma AddressBook_str_after_add_record_witness :
  AddressBook_str PaddedYear
    (snd (add_record (record_with_phone "Bob" "0000000000")
            [(lit "Ann", record_with_phone "Ann" "1111111111")]))
  = lit "Contact name: Ann, phones: 1111111111" ++ [10%N]
    ++ lit "Contact name: Bob, phones: 0000000000".
Proof.
  apply (AddressBook_str_after_add_record PaddedYear
           (record_with_phone "Bob" "0000000000")
           [(lit "Ann", record_with_phone "Ann" "1111111111")]).
  - discriminate.
  - reflexivity.
Defined.
